(** * A terminal browser: image rasterizer, element model and document mapper

    A shallow embedding of [src/main.py].

    Python values are modelled as follows.
    - [int] is [Z]; [%] with a positive modulus is [Z.modulo] and [max], [min]
      are [Z.max], [Z.min].
    - [float] is IEEE 754 binary64, taken from the Standard Library's
      [SpecFloat] at precision 53 and maximal exponent 1024.  [int / int],
      [float * int], [int * float] and [int(float)] are written out below with
      the exceptions Python raises.
    - [str] is [string].  [str.strip()] and [str.lower()] are modelled on the
      ASCII range (the whitespace and the letters Python knows below code
      point 128); text outside ASCII is outside this model.  The two glyphs
      the program prints are kept as their UTF-8 bytes.
    - An exception is a value of [exn]; code that may raise returns a
      [result].  Running out of memory or of stack is not an exception of
      the model.
    - A sequence index is a signed 64-bit integer, as on the 64-bit builds
      of CPython.
    - The markup tree is the one BeautifulSoup hands to the program: tags
      with a name, an attribute dictionary and an ordered list of children,
      and the string leaves [NavigableString], [Comment] and [Doctype].
      In bs4 all three kinds of leaves are subclasses of [str].
    - Lanczos resampling is a parameter of the rasterizer: only the size of
      the resized image matters to what is proved here. *)

From Stdlib Require Import ZArith List String Ascii Bool Lia.
From Stdlib Require Import Floats.SpecFloat.
From Stdlib Require Import Numbers.DecimalString Numbers.DecimalZ.
Import ListNotations.

Open Scope Z_scope.

(** ** Exceptions *)

Inductive exn : Type :=
| ZeroDivisionError
| OverflowError
| ValueError
| IndexError.

Inductive result (A : Type) : Type :=
| Ok (a : A)
| Raise (e : exn).

Arguments Ok {A} a.
Arguments Raise {A} e.

Definition bind {A B : Type} (c : result A) (k : A -> result B) : result B :=
  match c with
  | Ok a => k a
  | Raise e => Raise e
  end.

Notation "x <- c ;; k" := (bind c (fun x => k))
  (at level 61, c at next level, right associativity).

(** [[f(x) for x in l]] where [f] may raise: the first exception wins. *)
Fixpoint for_each {A B : Type} (f : A -> result B) (l : list A) : result (list B) :=
  match l with
  | [] => Ok []
  | a :: l' => b <- f a ;; bs <- for_each f l' ;; Ok (b :: bs)
  end.

(** ** Strings *)

Module Str.

Open Scope string_scope.

(** [str.isspace] on one ASCII character: tab, line feed, vertical tab,
    form feed, carriage return, the separators 28 to 31 and the space. *)
Definition isspace (c : ascii) : bool :=
  let n := nat_of_ascii c in
  ((9 <=? n) && (n <=? 13) || (28 <=? n) && (n <=? 32))%nat.

Fixpoint lstrip_by (p : ascii -> bool) (s : string) : string :=
  match s with
  | EmptyString => EmptyString
  | String c s' => if p c then lstrip_by p s' else s
  end.

Fixpoint rstrip_by (p : ascii -> bool) (s : string) : string :=
  match s with
  | EmptyString => EmptyString
  | String c s' =>
      match rstrip_by p s' with
      | EmptyString => if p c then EmptyString else String c EmptyString
      | t => String c t
      end
  end.

(** [s.strip()] *)
Definition strip (s : string) : string := rstrip_by isspace (lstrip_by isspace s).

(** [s.strip(chars)] for a one-character [chars] *)
Definition strip_char (ch : ascii) (s : string) : string :=
  rstrip_by (Ascii.eqb ch) (lstrip_by (Ascii.eqb ch) s).

Definition lower_char (c : ascii) : ascii :=
  let n := nat_of_ascii c in
  if ((65 <=? n) && (n <=? 90))%nat then ascii_of_nat (n + 32) else c.

(** [s.lower()] *)
Fixpoint lower (s : string) : string :=
  match s with
  | EmptyString => EmptyString
  | String c s' => String (lower_char c) (lower s')
  end.

(** [sub in s] *)
Fixpoint contains (sub s : string) : bool :=
  prefix sub s ||
  match s with
  | EmptyString => false
  | String _ s' => contains sub s'
  end.

(** [sep.join(parts)] *)
Definition join (sep : string) (parts : list string) : string := concat sep parts.

(** [s * n]: the empty string when [n <= 0]. *)
Fixpoint repeat_nat (s : string) (n : nat) : string :=
  match n with
  | O => EmptyString
  | S n' => s ++ repeat_nat s n'
  end.

Definition repeat (s : string) (n : Z) : string := repeat_nat s (Z.to_nat n).

(** [sys.maxsize], the largest index. *)
Definition PY_SSIZE_T_MAX : Z := (2 ^ 63 - 1)%Z.

(** [s * n] as Python evaluates it: a count that does not fit an index is
    an [OverflowError], and so is a result longer than the largest index;
    a count of 0 or less gives the empty string. *)
Definition mul (s : string) (n : Z) : result string :=
  if ((n <? - PY_SSIZE_T_MAX - 1) || (PY_SSIZE_T_MAX <? n))%Z then Raise OverflowError
  else if ((0 <? n) && (PY_SSIZE_T_MAX / n <? Z.of_nat (String.length s)))%Z
       then Raise OverflowError
       else Ok (repeat s n).

(** A truthy string is a non-empty one. *)
Definition truthy (s : string) : bool :=
  match s with
  | EmptyString => false
  | String _ _ => true
  end.

(** [f"{n}"] for an integer. *)
Definition of_int (n : Z) : string := NilZero.string_of_int (Z.to_int n).

End Str.

(** ** Color/Style codec *)

Definition ESC : string := String (ascii_of_nat 27) EmptyString.
Definition NL : string := String (ascii_of_nat 10) EmptyString.

Definition RESET : string := (ESC ++ "[0m")%string.

Definition rgb : Type := Z * Z * Z.

Definition rgb_to_ansi_fg (c : rgb) : string :=
  let '(r, g, b) := c in
  (ESC ++ "[38;2;" ++ Str.of_int r ++ ";" ++ Str.of_int g ++ ";" ++ Str.of_int b ++ "m")%string.

Definition rgb_to_ansi_bg (c : rgb) : string :=
  let '(r, g, b) := c in
  (ESC ++ "[48;2;" ++ Str.of_int r ++ ";" ++ Str.of_int g ++ ";" ++ Str.of_int b ++ "m")%string.

Definition BOLD : string := (ESC ++ "[1m")%string.
Definition UNDERLINE : string := (ESC ++ "[4m")%string.
Definition BLACK_FG : string := (ESC ++ "[30m")%string.
Definition RED_FG : string := (ESC ++ "[31m")%string.
Definition GREEN_FG : string := (ESC ++ "[32m")%string.
Definition YELLOW_FG : string := (ESC ++ "[33m")%string.
Definition BLUE_FG : string := (ESC ++ "[34m")%string.
Definition CYAN_FG : string := (ESC ++ "[36m")%string.
Definition WHITE_BG : string := (ESC ++ "[47m")%string.

(** The lower half block U+2584 and the bullet U+2022, in UTF-8. *)
Definition LOWER_HALF_BLOCK : string :=
  String (ascii_of_nat 226) (String (ascii_of_nat 150) (String (ascii_of_nat 132) EmptyString)).
Definition BULLET : string :=
  String (ascii_of_nat 226) (String (ascii_of_nat 128) (String (ascii_of_nat 162) EmptyString)).

(** ** Python's float arithmetic *)

Module Float.

Definition prec : Z := 53.
Definition emax : Z := 1024.

Definition float : Type := spec_float.

Definition mul : float -> float -> float := SFmul prec emax.

(** A float result that overflowed is an [OverflowError] in the integer
    operations below. *)
Definition finite_or_overflow (f : float) : result float :=
  match f with
  | S754_infinity _ => Raise OverflowError
  | _ => Ok f
  end.

(** [float(n)] for an integer: the nearest double, ties to even. *)
Definition of_int (n : Z) : result float :=
  finite_or_overflow (binary_normalize prec emax n 0 false).

(** [a / b] on integers: the correctly rounded quotient. *)
Definition int_truediv (a b : Z) : result float :=
  match a, b with
  | _, Z0 => Raise ZeroDivisionError
  | Z0, _ => Ok (S754_zero (b <? 0))
  | _, _ =>
      finite_or_overflow
        (SFdiv prec emax
           (S754_finite (a <? 0) (Z.to_pos (Z.abs a)) 0)
           (S754_finite (b <? 0) (Z.to_pos (Z.abs b)) 0))
  end.

(** [f * n] and [n * f] with [n] an integer: [n] is converted first. *)
Definition mul_int (f : float) (n : Z) : result float :=
  g <- of_int n ;; Ok (mul f g).

Definition int_mul (n : Z) (f : float) : result float :=
  g <- of_int n ;; Ok (mul g f).

(** [int(f)]: truncation toward zero. *)
Definition to_int (f : float) : result Z :=
  match f with
  | S754_zero _ => Ok 0
  | S754_infinity _ => Raise OverflowError
  | S754_nan => Raise ValueError
  | S754_finite s m e => Ok (cond_Zopp s (Z.shiftl (Zpos m) e))
  end.

(** The literal [0.5]. *)
Definition half : float := S754_finite false 4503599627370496 (-53).

End Float.

(** ** Image rasterizer *)

(** [range(start, stop, step)] for a positive [step], the only kind the
    program uses. *)
Definition range (start stop step : Z) : list Z :=
  map (fun i => start + step * Z.of_nat i)
      (seq 0 (Z.to_nat ((stop - start + step - 1) / step))).

(** A decoded RGB image: its [size] is (width, height); [pixels] is what
    [img.load()] indexes. *)
Record image : Type := {
  size : Z * Z;
  pixels : Z -> Z -> rgb
}.

(** [pixels[x, y]]: an index outside the image is an [IndexError].  (Pillow
    also accepts a negative index counted from the far edge; the model
    keeps to the indices from 0, so a read that succeeds here succeeds
    there on the same pixel.) *)
Definition getpixel (img : image) (x y : Z) : result rgb :=
  let '(w, h) := size img in
  if (0 <=? x) && (x <? w) && (0 <=? y) && (y <? h)
  then Ok (pixels img x y)
  else Raise IndexError.

(** The three sizes [image_to_terminal_art] computes before it resizes. *)
Record dimensions : Type := {
  target_height_chars : Z;
  resized_width_pixels : Z;
  resized_height_pixels : Z
}.

(** [max(1, t + (t % 2))], commented "Ensure even" in the source. *)
Definition ensure_even (t : Z) : Z := Z.max 1 (t + t mod 2).

(** Lines 23 to 33 of [image_to_terminal_art]. *)
Definition target_dimensions
    (original_width original_height max_width : Z)
    (char_aspect_ratio : Float.float) : result dimensions :=
  ratio <- Float.int_truediv original_height original_width ;;
  scaled <- Float.mul_int ratio max_width ;;
  t <- Float.to_int (Float.mul scaled char_aspect_ratio) ;;
  let target_height_chars := ensure_even t in
  let resized_height_pixels := target_height_chars * 2 in
  k <- Float.int_truediv resized_height_pixels original_height ;;
  wf <- Float.int_mul original_width k ;;
  resized_width_pixels <- Float.to_int wf ;;
  if resized_width_pixels >? max_width then
    let resized_width_pixels := max_width in
    k' <- Float.int_truediv resized_width_pixels original_width ;;
    hf <- Float.int_mul original_height k' ;;
    h <- Float.to_int hf ;;
    let resized_height_pixels := h + h mod 2 in
    Ok {| target_height_chars := target_height_chars;
          resized_width_pixels := resized_width_pixels;
          resized_height_pixels := resized_height_pixels |}
  else
    Ok {| target_height_chars := target_height_chars;
          resized_width_pixels := resized_width_pixels;
          resized_height_pixels := resized_height_pixels |}.

(** The body of the inner loop: one half-block cell. *)
Definition art_cell (img : image) (resized_height_pixels y x : Z) : result string :=
  top_pixel_rgb <- getpixel img x y ;;
  bottom_pixel_rgb <- getpixel img x (Z.min (y + 1) (resized_height_pixels - 1)) ;;
  Ok (rgb_to_ansi_fg bottom_pixel_rgb ++ rgb_to_ansi_bg top_pixel_rgb ++ LOWER_HALF_BLOCK)%string.

(** The body of the outer loop: one output line for the rows [y] and [y + 1]. *)
Definition art_line (img : image) (resized_width_pixels resized_height_pixels y : Z)
  : result string :=
  line <- for_each (art_cell img resized_height_pixels y) (range 0 resized_width_pixels 1) ;;
  Ok (Str.join "" line ++ RESET)%string.

(** Lines 38 to 45: [output_lines]. *)
Definition art_lines (img : image) (resized_width_pixels resized_height_pixels : Z)
  : result (list string) :=
  for_each (art_line img resized_width_pixels resized_height_pixels)
           (range 0 resized_height_pixels 2).

Section Rasterizer.

(** The pixel data [Image.resize(size, LANCZOS)] computes for an image and
    a target size. *)
Variable LANCZOS : image -> Z * Z -> Z -> Z -> rgb.

(** [img.resize(size, Image.Resampling.LANCZOS)]: Pillow refuses a width
    or a height below 1 with a [ValueError]. *)
Definition resize (img : image) (sz : Z * Z) : result image :=
  let '(w, h) := sz in
  if (w <? 1) || (h <? 1) then Raise ValueError
  else Ok {| size := sz; pixels := LANCZOS img sz |}.

(** [image_to_terminal_art] on a decoded image: the list [output_lines]
    that is joined with newlines and printed. *)
Definition image_to_terminal_art
    (img : image) (max_width : Z) (char_aspect_ratio : Float.float)
  : result (list string) :=
  let '(original_width, original_height) := size img in
  d <- target_dimensions original_width original_height max_width char_aspect_ratio ;;
  img' <- resize img (resized_width_pixels d, resized_height_pixels d) ;;
  art_lines img' (resized_width_pixels d) (resized_height_pixels d).

End Rasterizer.

(** ** Dictionaries

    A Python [dict] with string or integer keys, as an association list in
    which the first binding of a key is the one seen. *)

Section Dict.

Context {K V : Type}.
Variable eqb : K -> K -> bool.

Fixpoint lookup (k : K) (d : list (K * V)) : option V :=
  match d with
  | [] => None
  | (k', v) :: d' => if eqb k k' then Some v else lookup k d'
  end.

(** [d.get(k, default)] *)
Definition dict_get (d : list (K * V)) (k : K) (default : V) : V :=
  match lookup k d with
  | Some v => v
  | None => default
  end.

End Dict.

(** [x in xs] for a list or a set of strings. *)
Definition mem (x : string) (xs : list string) : bool :=
  existsb (String.eqb x) xs.

(** ** Element model *)

(** [element] and [node] below are nested through [list]; they are taken
    apart by case analysis, and lists of them by induction on the list. *)
#[local] Unset Elimination Schemes.

Inductive element : Type :=
| TextNode (text : string)
| Anchor (text href : string)
| Paragraph (content_parts : list element)
| Heading (text : string) (level : Z)
| ListElement (items_content_parts : list (list element))
| Button (label : string)
| Div (elements : list element)
| ImageElement (src : string) (base_url : option string) (max_width : Z).

(** [{1: BLUE_FG, 2: GREEN_FG}.get(self.level, YELLOW_FG)] *)
Definition heading_style (level : Z) : string :=
  dict_get Z.eqb [(1, BLUE_FG); (2, GREEN_FG)] level YELLOW_FG.

(** [Heading.render]: the repetition of the hash sign is its one step that
    can raise. *)
Definition Heading_render (text : string) (level : Z) : result string :=
  let style := heading_style level in
  hashes <- Str.mul "#" level ;;
  Ok (NL ++ BOLD ++ style ++ hashes ++ " " ++ text ++ RESET ++ NL)%string.

(** The string [Heading.render] returns, when it returns. *)
Definition Heading_text (text : string) (level : Z) : string :=
  (NL ++ BOLD ++ heading_style level ++ Str.repeat "#" level ++ " " ++ text ++ RESET ++ NL)%string.

Definition Anchor_render (text : string) : string :=
  (" " ++ BLUE_FG ++ UNDERLINE ++ text ++ RESET ++ " ")%string.

Definition Button_render (label : string) : string :=
  (" " ++ BLACK_FG ++ WHITE_BG ++ BOLD ++ "[ " ++ label ++ " ]" ++ RESET ++ NL)%string.

Section Render.

(** What [ImageElement.render] returns: the empty string after it has
    fetched and printed the image, or the error marker.  It depends on the
    network and is a parameter here. *)
Variable ImageElement_render : string -> option string -> Z -> string.

(** [e.render()]: the string it returns, when it returns.  Of the element
    classes only a heading can raise, at a level beyond the index range
    (see [Heading_render]). *)
Fixpoint render (e : element) : string :=
  match e with
  | TextNode text => text
  | Anchor text _ => Anchor_render text
  | Paragraph content_parts =>
      (Str.join "" (map render content_parts) ++ NL)%string
  | Heading text level => Heading_text text level
  | ListElement items_content_parts =>
      (Str.join NL
         (map (fun item_parts =>
                 CYAN_FG ++ BULLET ++ RESET ++ " " ++ Str.join "" (map render item_parts))
              items_content_parts) ++ NL)%string
  | Button label => Button_render label
  | Div elements =>
      (NL ++ NL ++ Str.strip_char (ascii_of_nat 10) (Str.join "" (map render elements))
          ++ NL ++ NL)%string
  | ImageElement src base_url max_width => ImageElement_render src base_url max_width
  end.

End Render.

(** ** Markup tree *)

Inductive node : Type :=
| Tag (name : string) (attrs : list (string * string)) (contents : list node)
| NavigableString (s : string)
| Comment (s : string)
| Doctype (s : string).

#[local] Set Elimination Schemes.

(** [isinstance(n, str)]: [NavigableString] derives from [str], and
    [Comment] and [Doctype] derive from [NavigableString]. *)
Definition isinstance_str (n : node) : bool :=
  match n with
  | Tag _ _ _ => false
  | NavigableString _ | Comment _ | Doctype _ => true
  end.

(** [isinstance(n, (Comment, Doctype))] *)
Definition isinstance_Comment_Doctype (n : node) : bool :=
  match n with
  | Comment _ | Doctype _ => true
  | Tag _ _ _ | NavigableString _ => false
  end.

(** The characters of a string leaf. *)
Definition str_value (n : node) : string :=
  match n with
  | NavigableString s | Comment s | Doctype s => s
  | Tag _ _ _ => EmptyString
  end.

(** [tag.contents]; only tags reach the places that read it. *)
Definition node_contents (n : node) : list node :=
  match n with
  | Tag _ _ contents => contents
  | _ => []
  end.

(** The strings [get_text(strip=True)] collects below (or at) a node, in
    document order: the stripped plain strings that are not empty.
    Comments and doctypes are not among the string types it reads.  (The
    other special string classes of bs4, such as [CData] or the strings of
    [script] and [style] tags in recent versions, are not modelled: every
    other leaf is a plain [NavigableString].) *)
Fixpoint stripped_strings (n : node) : list string :=
  match n with
  | NavigableString s => if Str.truthy (Str.strip s) then [Str.strip s] else []
  | Comment _ | Doctype _ => []
  | Tag _ _ contents => flat_map stripped_strings contents
  end.

(** [n.get_text(strip=True)] *)
Definition get_text (n : node) : string := Str.join "" (stripped_strings n).

(** [n.descendants]: every node below [n], in document order. *)
Fixpoint descendants (n : node) : list node :=
  match n with
  | Tag _ _ contents => flat_map (fun c => c :: descendants c) contents
  | _ => []
  end.

Definition is_tag_named (name : string) (n : node) : bool :=
  match n with
  | Tag name' _ _ => String.eqb name' name
  | _ => false
  end.

(** [n.find(name)] *)
Definition find_tag (name : string) (n : node) : option node :=
  find (is_tag_named name) (descendants n).

(** [n.find_all(name, recursive=False)] *)
Definition find_all_children (name : string) (n : node) : list node :=
  filter (is_tag_named name) (node_contents n).

(** ** Document mapper *)

(** [int(tag_name[1])] for [h1], [h2], [h3]. *)
Definition heading_level (tag_name : string) : Z :=
  match get 1 tag_name with
  | Some c => Z.of_nat (nat_of_ascii c) - 48
  | None => 0
  end.

(** One turn of the loop of [_parse_inline_content]: what [content_node]
    appends to [parsed_inline_elements]. *)
Definition inline_step (parsed_inline_elements : list element) (content_node : node)
  : list element :=
  if isinstance_Comment_Doctype content_node then parsed_inline_elements
  else if isinstance_str content_node then
    let text := Str.strip (str_value content_node) in
    if Str.truthy text
       && negb (Str.contains "endif" (Str.lower text))
       && negb (Str.contains "[if" (Str.lower text))
       && negb (Str.contains "<!" text)
    then parsed_inline_elements ++ [TextNode text]
    else parsed_inline_elements
  else
    match content_node with
    | Tag name attrs _ =>
        let tag_name := Str.lower name in
        if mem tag_name ["script"; "style"; "noscript"]%string then parsed_inline_elements
        else if String.eqb tag_name "a" then
          let text := get_text content_node in
          if Str.truthy text
          then parsed_inline_elements ++ [Anchor text (dict_get String.eqb attrs "href" "#")%string]
          else parsed_inline_elements
        else if String.eqb tag_name "img" then
          match lookup String.eqb "src"%string attrs with
          | Some src => parsed_inline_elements ++ [ImageElement src None 80]
          | None => parsed_inline_elements
          end
        else
          let text := get_text content_node in
          if Str.truthy text
          then parsed_inline_elements ++ [TextNode text]
          else parsed_inline_elements
    | _ => parsed_inline_elements
    end.

Definition _parse_inline_content (parent_tag : node) : list element :=
  fold_left inline_step (node_contents parent_tag) [].

Fixpoint _parse_elements (tag : node) : list element :=
  if isinstance_str tag then
    if Str.truthy (Str.strip (str_value tag))
    then [TextNode (Str.strip (str_value tag))]
    else []
  else
    match tag with
    | Tag name attrs contents =>
        if isinstance_Comment_Doctype tag
           || mem (Str.lower name) ["style"; "script"; "noscript"]%string
        then []
        else
          let tag_name := Str.lower name in
          if mem tag_name ["h1"; "h2"; "h3"]%string then
            [Heading (get_text tag) (heading_level tag_name)]
          else if String.eqb tag_name "p" then
            [Paragraph (_parse_inline_content tag)]
          else if String.eqb tag_name "ul" then
            [ListElement (map _parse_inline_content (find_all_children "li" tag))]
          else if String.eqb tag_name "a" then
            let text := get_text tag in
            if Str.truthy text
            then [Anchor text (dict_get String.eqb attrs "href" "#")%string]
            else []
          else if String.eqb tag_name "button" then
            [Button (get_text tag)]
          else if String.eqb tag_name "img" then
            match lookup String.eqb "src"%string attrs with
            | Some src => [ImageElement src None 80]
            | None => []
            end
          else
            let elements :=
              fold_left (fun elements child => elements ++ _parse_elements child)
                        contents [] in
            match elements with
            | _ :: _ => elements
            | [] => if Str.truthy (get_text tag) then [TextNode (get_text tag)] else []
            end
    | _ => []
    end.

(** [Parser.parse] on the tree [BeautifulSoup(html, 'html.parser')] built:
    (elements, page_title). *)
Definition parse (soup : node) : list element * string :=
  let page_title :=
    match find_tag "title" soup with
    | Some title => get_text title
    | None => "No Title"%string
    end in
  (_parse_elements
     match find_tag "html" soup with
     | Some html => html
     | None => soup
     end,
   page_title).

(** ** Induction on the markup tree *)

Section NodeInduction.

Variable P : node -> Prop.
Hypothesis P_Tag :
  forall name attrs contents, Forall P contents -> P (Tag name attrs contents).
Hypothesis P_NavigableString : forall s, P (NavigableString s).
Hypothesis P_Comment : forall s, P (Comment s).
Hypothesis P_Doctype : forall s, P (Doctype s).

Fixpoint node_tree_ind (n : node) : P n :=
  match n with
  | Tag name attrs contents =>
      P_Tag name attrs contents
        ((fix children (l : list node) : Forall P l :=
            match l with
            | [] => Forall_nil P
            | c :: l' => Forall_cons c (node_tree_ind c) (children l')
            end) contents)
  | NavigableString s => P_NavigableString s
  | Comment s => P_Comment s
  | Doctype s => P_Doctype s
  end.

End NodeInduction.

(** ** What the mapper builds

    The shape of the elements the two mapping functions construct: the
    inline ones are texts, links and images; the block ones add headings,
    paragraphs, lists and buttons. *)

Definition inline_shape (e : element) : bool :=
  match e with
  | TextNode text => Str.truthy text
  | Anchor text _ => Str.truthy text
  | ImageElement _ None max_width => max_width =? 80
  | _ => false
  end.

Definition block_shape (e : element) : bool :=
  match e with
  | TextNode _ | Anchor _ _ | ImageElement _ _ _ => inline_shape e
  | Paragraph content_parts => forallb inline_shape content_parts
  | Heading _ level => (1 <=? level) && (level <=? 3)
  | ListElement items_content_parts => forallb (forallb inline_shape) items_content_parts
  | Button _ => true
  | Div _ => false
  end.

(** ** Image element *)

(** [s[n:]] *)
Fixpoint drop (n : nat) (s : string) : string :=
  match n, s with
  | O, _ => s
  | S n', String _ s' => drop n' s'
  | S _, EmptyString => EmptyString
  end.

(** The locator [ImageElement.render] fetches (lines 113 to 115). *)
Definition image_url (src : string) (base_url : option string) : string :=
  match base_url with
  | Some base =>
      if prefix "/" src && Str.truthy base
      then (Str.rstrip_by (Ascii.eqb "/") base ++ src)%string
      else src
  | None => src
  end.

(** [f"\n[Image: {image_url}]\n"], printed. *)
Definition image_caption (image_url : string) : string :=
  (NL ++ "[Image: " ++ image_url ++ "]" ++ NL ++ NL)%string.

(** [f"\n[Error rendering image {self.src}: {e}]\n"] *)
Definition image_error_marker (src e : string) : string :=
  (NL ++ "[Error rendering image " ++ src ++ ": " ++ e ++ "]" ++ NL)%string.

Section ImageIO.

(** The collaborators of [ImageElement.render]: the payload type, the
    fetch ([requests.get] followed by [raise_for_status], with the text of
    the exception on failure), the decoder ([Image.open(...).convert],
    [None] when it raises), the resampler and the text of an exception. *)
Variable payload : Type.
Variable requests_get : string -> string + payload.
Variable Image_open : payload -> option image.
Variable LANCZOS : image -> Z * Z -> Z -> Z -> rgb.
Variable exn_text : exn -> string.

(** [ImageElement.render]: what it writes to standard output, and the
    string it returns.  A decoding error is reported on the error stream
    inside [image_to_terminal_art], which then returns normally. *)
Definition ImageElement_render_io
    (src : string) (base_url : option string) (max_width : Z) : string * string :=
  let image_url := image_url src base_url in
  match requests_get image_url with
  | inl e => (EmptyString, image_error_marker src e)
  | inr content =>
      match Image_open content with
      | None => (image_caption image_url, EmptyString)
      | Some img =>
          match image_to_terminal_art LANCZOS img max_width Float.half with
          | Ok output_lines =>
              ((Str.join NL output_lines ++ NL ++ image_caption image_url)%string,
               EmptyString)
          | Raise e => (EmptyString, image_error_marker src (exn_text e))
          end
      end
  end.

(** What [e.render()] writes to standard output while it runs: the images
    below [e], in order. *)
Fixpoint render_prints (e : element) : string :=
  match e with
  | Paragraph content_parts => Str.join "" (map render_prints content_parts)
  | ListElement items_content_parts =>
      Str.join ""
        (map (fun item_parts => Str.join "" (map render_prints item_parts))
             items_content_parts)
  | Div elements => Str.join "" (map render_prints elements)
  | ImageElement src base_url max_width =>
      fst (ImageElement_render_io src base_url max_width)
  | TextNode _ | Anchor _ _ | Heading _ _ | Button _ => EmptyString
  end.

(** What [e.render()] returns. *)
Definition render_value (e : element) : string :=
  render (fun src base_url max_width => snd (ImageElement_render_io src base_url max_width)) e.

(** ** Output compositor *)

(** The banner [Renderer.render] prints for a title (line 191). *)
Definition banner (title : string) : string :=
  let border := Str.repeat "=" (Z.of_nat (String.length title) + 6) in
  (BOLD ++ CYAN_FG ++ border ++ NL ++ "=== " ++ title ++ " ===" ++ NL
        ++ border ++ RESET ++ NL ++ NL)%string.

(** What one turn of the loop of [Renderer.render] prints. *)
Definition render_element (e : element) : string :=
  match e with
  | ImageElement _ _ _ => render_prints e
  | _ => (render_prints e ++ render_value e)%string
  end.

(** [Renderer.render]: everything written to standard output. *)
Definition Renderer_render (elements : list element) (title : option string) : string :=
  ((match title with
    | Some t => if Str.truthy t then banner t else EmptyString
    | None => EmptyString
    end) ++ Str.join "" (map render_element elements))%string.

(** [Renderer.clear] prints the terminal reset. *)
Definition Renderer_clear : string := (ESC ++ "c")%string.

Definition Renderer_refresh (elements : list element) (title : option string) : string :=
  (Renderer_clear ++ Renderer_render elements title)%string.

End ImageIO.

(** ** Browser: navigation bookkeeping *)

Record Browser : Type := {
  history : list string;
  current_url : option string
}.

(** [Browser.__init__] *)
Definition Browser_init : Browser := {| history := []; current_url := None |}.

(** What a command does besides updating the browser: a page load
    ([_load_content(url)], which parses and redraws) or a printed line. *)
Inductive effect : Type :=
| LoadContent (url : string)
| PrintLine (text : string).

Definition navigate (b : Browser) (url : string) : Browser * list effect :=
  ({| history := history b ++ [url]; current_url := Some url |}, [LoadContent url]).

Definition go_back (b : Browser) : Browser * list effect :=
  if (1 <? List.length (history b))%nat then
    let popped := removelast (history b) in
    let url := last popped EmptyString in
    ({| history := popped; current_url := Some url |}, [LoadContent url])
  else (b, [PrintLine "No history to go back to."]).

Definition handle_input (b : Browser) (user_input : string) : Browser * list effect :=
  if prefix "go " user_input then
    navigate b (Str.strip (drop 3 user_input))
  else if prefix "search " user_input then
    navigate b ("search:" ++ Str.strip (drop 7 user_input))%string
  else if String.eqb user_input "back" then go_back b
  else (b, [PrintLine "Unknown command. Commands: go <url>, search <query>, back, quit"]).

(** The loop of [Browser.start] over the lines typed, until [quit] (or the
    end of the lines given). *)
Fixpoint command_loop (b : Browser) (inputs : list string) : Browser * list effect :=
  match inputs with
  | [] => (b, [])
  | user_input :: rest =>
      if String.eqb user_input "quit" then (b, [PrintLine "Exiting browser."])
      else
        let '(b', effects) := handle_input b user_input in
        let '(b'', effects') := command_loop b' rest in
        (b'', effects ++ effects')
  end.

Definition start (inputs : list string) : Browser * list effect :=
  let '(b, effects) := command_loop Browser_init inputs in
  (b,
   PrintLine ("Welcome to the TUI Web Browser!" ++ NL
                ++ "Commands: go <url>, search <query>, back, quit")%string
     :: LoadContent "home" :: effects).

(** Where [_load_content] takes the page from (lines 222 to 235). *)
Inductive content_source : Type :=
| HomePage
| AnotherPage
| SearchResults (query : string)
| Remote (url : string).

Definition with_scheme (url : string) : string :=
  if prefix "http://" url || prefix "https://" url then url
  else ("https://" ++ url)%string.

Definition _load_content_source (url : string) : content_source :=
  if String.eqb url "home" then HomePage
  else if String.eqb url "another_page" then AnotherPage
  else if prefix "search:" url then SearchResults (Str.strip (drop 7 url))
  else Remote (with_scheme url).

(** ** Predicates of the properties *)

(** [s] is empty or starts with a character that [p] rejects. *)
Definition head_kept (p : ascii -> bool) (s : string) : Prop :=
  match s with
  | EmptyString => True
  | String c _ => p c = false
  end.

(** The tag names [_parse_elements] has a branch for; any other tag is a
    container. *)
Definition dispatched_tags : list string :=
  ["style"; "script"; "noscript"; "h1"; "h2"; "h3"; "p"; "ul"; "a"; "button"; "img"]%string.

(** The current locator is the last entry of the history (and there is
    none while the history is empty). *)
Definition consistent (b : Browser) : Prop :=
  current_url b =
  match history b with
  | [] => None
  | _ :: _ => Some (last (history b) EmptyString)
  end.

(** Every character of [s] passes [p]. *)
Fixpoint all_chars (p : ascii -> bool) (s : string) : bool :=
  match s with
  | EmptyString => true
  | String c s' => p c && all_chars p s'
  end.

(** A decimal digit or the minus sign. *)
Definition is_numeric (c : ascii) : bool :=
  let n := nat_of_ascii c in
  ((48 <=? n) && (n <=? 57) || (n =? 45))%nat.

(** [int(s)] on what [f"{n}"] writes. *)
Definition int_of_str (s : string) : option Z :=
  option_map Z.of_int (NilZero.int_of_string s).

(** ** Concrete inputs *)

(** A 1x3 image: an odd height, where the last row is paired with itself. *)
Definition odd_height_image : image :=
  {| size := (1, 3); pixels := fun x y => (x, y, 0) |}.

(** A black 100x50 image and a resampler that paints everything black. *)
Definition black_100x50 : image :=
  {| size := (100, 50); pixels := fun _ _ => (0, 0, 0) |}.

Definition paint_black : image -> Z * Z -> Z -> Z -> rgb :=
  fun _ _ _ _ => (0, 0, 0).

(** The tree [html.parser] builds for
    [<title>T</title><p>Hi <a href="x">there</a></p>]: the root object,
    named [[document]], with the two tags as its children. *)
Definition scenario_A : node :=
  Tag "[document]" []
    [Tag "title" [] [NavigableString "T"];
     Tag "p" []
       [NavigableString "Hi ";
        Tag "a" [("href", "x")%string] [NavigableString "there"]]].

(** [<div><!-- secret --></div>] *)
Definition commented_div : node := Tag "div" [] [Comment " secret "].

(** [<div><span></span>  <a></a></div>] *)
Definition empty_div : node :=
  Tag "div" [] [Tag "span" [] []; NavigableString "  "; Tag "a" [] []].

(** [<A class="nav"> there </A>] *)
Definition upper_case_link : node :=
  Tag "A" [("class", "nav")%string] [NavigableString " there "].

(** [<div><noscript>Enable JS</noscript></div>] *)
Definition noscript_div : node :=
  Tag "div" [] [Tag "noscript" [] [NavigableString "Enable JS"]].

(** [<!DOCTYPE html><html><p>x</p></html><!-- end -->] *)
Definition html_document : node :=
  Tag "[document]" []
    [Doctype "html";
     Tag "html" [] [Tag "p" [] [NavigableString "x"]];
     Comment " end "].

(** [<ul> loose <li>One</li><p>no</p><li>Two</li></ul>] *)
Definition mixed_list : node :=
  Tag "ul" []
    [NavigableString " loose ";
     Tag "li" [] [NavigableString "One"];
     Tag "p" [] [NavigableString "no"];
     Tag "li" [] [NavigableString "Two"]].

(** A browser that has visited one page. *)
Definition one_page_browser : Browser :=
  {| history := ["example.com"%string]; current_url := Some "example.com"%string |}.

(** A fetch that always fails, with a decoder that is never reached. *)
Definition failing_get (url : string) : string + unit := inl "timed out"%string.

Definition no_decoder (content : unit) : option image := None.

Definition no_exn_text (e : exn) : string := EmptyString.

(** The residue of a conditional comment, as a raw text node. *)
Definition conditional_comment : string := "<!--[if IE]>hi<![endif]-->".

(** * Properties *)

(** ** Loops that may raise *)

Lemma for_each_ok {A B : Type} (f : A -> result B) (l : list A) :
  (forall a, In a l -> exists b, f a = Ok b) ->
  exists bs, for_each f l = Ok bs /\ List.length bs = List.length l.
Proof.
  induction l as [|a l IH]; intros Hf; simpl.
  - exists []. split; reflexivity.
  - destruct (Hf a (or_introl eq_refl)) as [b Hb].
    destruct IH as [bs [Hbs Hlen]].
    + intros a' Ha'. apply Hf. right. exact Ha'.
    + exists (b :: bs). rewrite Hb, Hbs. simpl. split; [reflexivity | now rewrite Hlen].
Qed.

(** ** [range] *)

Lemma range_length (start stop step : Z) :
  List.length (range start stop step) = Z.to_nat ((stop - start + step - 1) / step).
Proof.
  unfold range. now rewrite List.length_map, List.length_seq.
Qed.

Lemma in_range (start stop step y : Z) :
  0 < step ->
  In y (range start stop step) ->
  start <= y < stop /\ (y - start) mod step = 0.
Proof.
  intros Hstep Hin. unfold range in Hin.
  apply in_map_iff in Hin. destruct Hin as [i [Hy Hi]].
  apply in_seq in Hi. destruct Hi as [_ Hi]. simpl in Hi.
  set (n := (stop - start + step - 1) / step) in *.
  assert (Hn : 0 < n) by lia.
  assert (Hi' : Z.of_nat i + 1 <= n) by lia.
  assert (Hle : step * n <= stop - start + step - 1).
  { unfold n. apply Z.mul_div_le. exact Hstep. }
  subst y. split.
  - nia.
  - replace (start + step * Z.of_nat i - start) with (Z.of_nat i * step) by lia.
    apply Z_mod_mult.
Qed.

(** ** The row-pair loop *)

Lemma getpixel_in_bounds (img : image) (w h x y : Z) :
  size img = (w, h) -> 0 <= x < w -> 0 <= y < h ->
  getpixel img x y = Ok (pixels img x y).
Proof.
  intros Hsz Hx Hy. unfold getpixel. rewrite Hsz.
  replace (0 <=? x) with true by (symmetry; apply Z.leb_le; lia).
  replace (x <? w) with true by (symmetry; apply Z.ltb_lt; lia).
  replace (0 <=? y) with true by (symmetry; apply Z.leb_le; lia).
  replace (y <? h) with true by (symmetry; apply Z.ltb_lt; lia).
  reflexivity.
Qed.

Lemma bottom_row_clamped (h y : Z) :
  0 <= y < h -> 0 <= Z.min (y + 1) (h - 1) < h.
Proof. lia. Qed.

Lemma art_cell_ok (img : image) (w h x y : Z) :
  size img = (w, h) -> 0 <= x < w -> 0 <= y < h ->
  exists cell, art_cell img h y x = Ok cell.
Proof.
  intros Hsz Hx Hy. unfold art_cell.
  rewrite (getpixel_in_bounds img w h x y Hsz Hx Hy).
  rewrite (getpixel_in_bounds img w h x _ Hsz Hx (bottom_row_clamped h y Hy)).
  simpl. eexists. reflexivity.
Qed.

Lemma art_line_ok (img : image) (w h y : Z) :
  size img = (w, h) -> 0 <= y < h ->
  exists line, art_line img w h y = Ok line.
Proof.
  intros Hsz Hy. unfold art_line.
  destruct (for_each_ok (art_cell img h y) (range 0 w 1)) as [cells [Hcells _]].
  - intros x Hx. apply (in_range 0 w 1 x) in Hx; [|lia].
    apply (art_cell_ok img w h x y Hsz); [lia | exact Hy].
  - rewrite Hcells. simpl. eexists. reflexivity.
Qed.

Lemma art_lines_ok (img : image) (w h : Z) :
  size img = (w, h) ->
  exists output_lines,
    art_lines img w h = Ok output_lines /\
    List.length output_lines = List.length (range 0 h 2).
Proof.
  intros Hsz. unfold art_lines. apply for_each_ok.
  intros y Hy. apply (in_range 0 h 2 y) in Hy; [|lia].
  apply (art_line_ok img w h y Hsz). lia.
Qed.

(** C10. In the row-pair loop over a resized image of width [w >= 1] and
    height [h >= 1], every row index [y] the outer loop takes is below [h],
    the bottom row index [min(y + 1, h - 1)] is a row of the image too, both
    pixel reads of every column succeed, and so the loop raises nothing and
    returns one line per row pair, also when [h] is odd. *)
Theorem row_pair_loop_in_bounds (img : image) (w h : Z) :
  size img = (w, h) -> 1 <= w -> 1 <= h ->
  (forall y, In y (range 0 h 2) ->
     0 <= y < h /\
     0 <= Z.min (y + 1) (h - 1) < h /\
     (Z.min (y + 1) (h - 1) = if y + 1 <? h then y + 1 else y) /\
     forall x, In x (range 0 w 1) ->
       0 <= x < w /\
       getpixel img x y = Ok (pixels img x y) /\
       getpixel img x (Z.min (y + 1) (h - 1))
         = Ok (pixels img x (Z.min (y + 1) (h - 1)))) /\
  exists output_lines,
    art_lines img w h = Ok output_lines /\
    List.length output_lines = Z.to_nat ((h + 1) / 2).
Proof.
  intros Hsz Hw Hh. split.
  - intros y Hy. apply (in_range 0 h 2 y) in Hy; [|lia].
    assert (Hy' : 0 <= y < h) by lia.
    split; [exact Hy'|]. split; [lia|]. split.
    + destruct (Z.ltb_spec (y + 1) h); lia.
    + intros x Hx. apply (in_range 0 w 1 x) in Hx; [|lia].
      assert (Hx' : 0 <= x < w) by lia.
      split; [exact Hx'|]. split.
      * apply (getpixel_in_bounds img w h); assumption.
      * apply (getpixel_in_bounds img w h); [assumption | assumption | lia].
  - destruct (art_lines_ok img w h Hsz) as [ls [Hls Hlen]].
    exists ls. split; [exact Hls|].
    rewrite Hlen, range_length. f_equal. f_equal. lia.
Qed.

Lemma row_pair_loop_in_bounds_witness :
  (forall y, In y (range 0 3 2) ->
     0 <= y < 3 /\
     0 <= Z.min (y + 1) (3 - 1) < 3 /\
     (Z.min (y + 1) (3 - 1) = if y + 1 <? 3 then y + 1 else y) /\
     forall x, In x (range 0 1 1) ->
       0 <= x < 1 /\
       getpixel odd_height_image x y = Ok (pixels odd_height_image x y) /\
       getpixel odd_height_image x (Z.min (y + 1) (3 - 1))
         = Ok (pixels odd_height_image x (Z.min (y + 1) (3 - 1)))) /\
  exists output_lines,
    art_lines odd_height_image 1 3 = Ok output_lines /\
    List.length output_lines = Z.to_nat ((3 + 1) / 2).
Proof.
  apply (row_pair_loop_in_bounds odd_height_image 1 3); [reflexivity | lia | lia].
Defined.

(** ** Target sizes *)

Lemma ensure_even_positive (t : Z) : 1 <= ensure_even t.
Proof. unfold ensure_even. lia. Qed.

(** From 1 on, the parity step does what its comment says. *)
Lemma ensure_even_even (t : Z) : 1 <= t -> Z.even (ensure_even t) = true.
Proof.
  intros Ht. unfold ensure_even.
  rewrite Z.max_r by (pose proof (Z.mod_pos_bound t 2); lia).
  rewrite Zeven_mod. apply Z.eqb_eq.
  rewrite Zplus_mod_idemp_r.
  replace (t + t) with (t * 2) by lia. apply Z_mod_mult.
Qed.

(** A truncated height of 0 or less is lifted to 1 after the parity step,
    and 1 is odd. *)
Lemma ensure_even_of_nonpositive (t : Z) : t <= 0 -> ensure_even t = 1.
Proof.
  intros Ht. unfold ensure_even.
  pose proof (Z.mod_pos_bound t 2 eq_refl) as Hm.
  assert (t < 0 \/ t = 0) as [Hneg | ->] by lia.
  - lia.
  - reflexivity.
Qed.

Lemma add_parity_even (h : Z) : Z.even (h + h mod 2) = true.
Proof.
  rewrite Zeven_mod. apply Z.eqb_eq.
  rewrite Zplus_mod_idemp_r.
  replace (h + h) with (h * 2) by lia. apply Z_mod_mult.
Qed.

Ltac bind_cases H :=
  repeat match type of H with
         | bind ?c _ = Ok _ => destruct c; simpl in H; [|discriminate H]
         | (if ?b then _ else _) = Ok _ => destruct b
         end.

(** Whenever the sizes are computed at all, the character height is at
    least 1 and the pixel height is even, in both branches. *)
Lemma target_dimensions_sound
    (original_width original_height max_width : Z) (ar : Float.float) (d : dimensions) :
  target_dimensions original_width original_height max_width ar = Ok d ->
  1 <= target_height_chars d /\ Z.even (resized_height_pixels d) = true.
Proof.
  intros H. unfold target_dimensions in H. bind_cases H.
  - injection H as <-. simpl. split; [apply ensure_even_positive | apply add_parity_even].
  - injection H as <-. simpl. split; [apply ensure_even_positive|].
    rewrite Z.even_mul. apply orb_true_r.
Qed.

Section RasterizerProperties.

Variable LANCZOS : image -> Z * Z -> Z -> Z -> rgb.

(** The rasterizer prints one line per pair of pixel rows of the resized
    image. *)
Lemma image_to_terminal_art_lines
    (img : image) (W H max_width : Z) (ar : Float.float) (d : dimensions) :
  size img = (W, H) ->
  target_dimensions W H max_width ar = Ok d ->
  1 <= resized_width_pixels d -> 1 <= resized_height_pixels d ->
  exists output_lines,
    image_to_terminal_art LANCZOS img max_width ar = Ok output_lines /\
    List.length output_lines = List.length (range 0 (resized_height_pixels d) 2).
Proof.
  intros Hsz Hd Hw Hh. unfold image_to_terminal_art. rewrite Hsz, Hd. simpl.
  replace (resized_width_pixels d <? 1) with false by (symmetry; apply Z.ltb_ge; lia).
  replace (resized_height_pixels d <? 1) with false by (symmetry; apply Z.ltb_ge; lia).
  simpl. apply art_lines_ok. reflexivity.
Qed.

Lemma scenario_E_lines (img : image) :
  size img = (100, 50) ->
  exists output_lines,
    image_to_terminal_art LANCZOS img 80 Float.half = Ok output_lines /\
    List.length output_lines = 20%nat.
Proof.
  intros Hsz.
  apply (image_to_terminal_art_lines img 100 50 80 Float.half
           {| target_height_chars := 20;
              resized_width_pixels := 80;
              resized_height_pixels := 40 |} Hsz);
    [vm_compute; reflexivity | simpl; lia | simpl; lia].
Qed.

End RasterizerProperties.

(** C1, as amended. A 100x50 image rasterized with [max_width = 80] and
    the aspect ratio 0.5 gets the target character height 20, is resized to
    80x40 pixels, and is printed as 20 lines: one per character row, each
    covering two of the 40 pixel rows. *)
Theorem scenario_E_twenty_lines
    (LANCZOS : image -> Z * Z -> Z -> Z -> rgb) (img : image) :
  size img = (100, 50) ->
  target_dimensions 100 50 80 Float.half
    = Ok {| target_height_chars := 20;
            resized_width_pixels := 80;
            resized_height_pixels := 40 |} /\
  ensure_even 20 = 20 /\
  exists output_lines,
    image_to_terminal_art LANCZOS img 80 Float.half = Ok output_lines /\
    List.length output_lines = 20%nat.
Proof.
  intros Hsz. split; [vm_compute; reflexivity|]. split; [reflexivity|].
  apply scenario_E_lines. exact Hsz.
Qed.

Lemma scenario_E_twenty_lines_witness :
  target_dimensions 100 50 80 Float.half
    = Ok {| target_height_chars := 20;
            resized_width_pixels := 80;
            resized_height_pixels := 40 |} /\
  ensure_even 20 = 20 /\
  exists output_lines,
    image_to_terminal_art paint_black black_100x50 80 Float.half = Ok output_lines /\
    List.length output_lines = 20%nat.
Proof.
  apply (scenario_E_twenty_lines paint_black black_100x50). reflexivity.
Defined.

(** C1, as stated, fails: the image of scenario E is not printed as 10
    lines. *)
Lemma scenario_E_not_ten_lines :
  ~ (forall (LANCZOS : image -> Z * Z -> Z -> Z -> rgb) (img : image),
       size img = (100, 50) ->
       (exists d, target_dimensions 100 50 80 Float.half = Ok d /\
                  target_height_chars d = 20) /\
       exists output_lines,
         image_to_terminal_art LANCZOS img 80 Float.half = Ok output_lines /\
         List.length output_lines = 10%nat).
Proof.
  intros H.
  destruct (H paint_black black_100x50 eq_refl) as [_ [ls [Hls Hlen]]].
  destruct (scenario_E_lines paint_black black_100x50 eq_refl) as [ls' [Hls' Hlen']].
  rewrite Hls in Hls'. injection Hls' as <-.
  rewrite Hlen in Hlen'. discriminate Hlen'.
Qed.

(** C3. On a 121x3 image with [max_width = 80] the truncated height is 0;
    the parity step leaves it at 0 and [max] lifts it to 1, so the target
    character height is 1, which is odd.  (The pixel height, 2, is even.) *)
Theorem target_height_chars_odd_121x3 :
  target_dimensions 121 3 80 Float.half
    = Ok {| target_height_chars := 1;
            resized_width_pixels := 80;
            resized_height_pixels := 2 |} /\
  Z.even 1 = false /\
  ensure_even 0 = 1.
Proof.
  split; [vm_compute; reflexivity|]. split; reflexivity.
Qed.

(** On a 100x1 image the same happens and, width capped, the pixel height
    becomes 0, which [resize] refuses. *)
Lemma degenerate_100x1 (LANCZOS : image -> Z * Z -> Z -> Z -> rgb) (img : image) :
  size img = (100, 1) ->
  target_dimensions 100 1 80 Float.half
    = Ok {| target_height_chars := 1;
            resized_width_pixels := 80;
            resized_height_pixels := 0 |} /\
  image_to_terminal_art LANCZOS img 80 Float.half = Raise ValueError.
Proof.
  intros Hsz. split; [vm_compute; reflexivity|].
  unfold image_to_terminal_art. rewrite Hsz. vm_compute. reflexivity.
Qed.

(** On an 80x6 image the width cap applies: the character height stays 4
    while the image is resized to 6 pixel rows, printed as 3 lines. *)
Lemma capped_80x6 :
  target_dimensions 80 6 80 Float.half
    = Ok {| target_height_chars := 4;
            resized_width_pixels := 80;
            resized_height_pixels := 6 |} /\
  List.length (range 0 6 2) = 3%nat.
Proof.
  split; [vm_compute; reflexivity | reflexivity].
Qed.

(** ** Floats *)

(** The literal [0.5] is the double that [1 / 2] computes. *)
Lemma half_is_one_over_two : Float.int_truediv 1 2 = Ok Float.half.
Proof. reflexivity. Qed.

(** ** Substrings *)

Lemma prefix_iff (p s : string) :
  prefix p s = true <-> exists rest, s = (p ++ rest)%string.
Proof.
  revert s. induction p as [|a p IH]; intros s.
  - destruct s; simpl; (split; [intros _; eexists; reflexivity | reflexivity]).
  - destruct s as [|b s]; simpl.
    + split; [discriminate | intros [rest H]; discriminate H].
    + destruct (ascii_dec a b) as [->|Hne].
      * rewrite IH. split; intros [rest H]; exists rest.
        -- now rewrite H.
        -- now injection H.
      * split; [discriminate | intros [rest H]; injection H as H1 H2; congruence].
Qed.

(** [Str.contains] is Python's [in] on strings. *)
Lemma contains_iff (sub s : string) :
  Str.contains sub s = true <->
  exists before after, s = (before ++ sub ++ after)%string.
Proof.
  induction s as [|c s IH]; cbn [Str.contains]; rewrite orb_true_iff.
  - rewrite (prefix_iff sub EmptyString). split.
    + intros [[rest H] | H]; [|discriminate H].
      exists EmptyString, rest. exact H.
    + intros [[|b before] [after H]]; [left; exists after; exact H | discriminate H].
  - rewrite (prefix_iff sub (String c s)), IH. split.
    + intros [[rest H] | [before [after H]]].
      * exists EmptyString, rest. exact H.
      * exists (String c before), after. simpl. now rewrite H.
    + intros [[|b before] [after H]].
      * left. exists after. exact H.
      * right. exists before, after. simpl in H. now injection H.
Qed.

(** ** The mapper's loops *)

Lemma inline_step_app (acc : list element) (n : node) :
  inline_step acc n = acc ++ inline_step [] n.
Proof.
  unfold inline_step.
  repeat match goal with
         | |- context [if ?b then _ else _] => destruct b
         | |- context [match ?n with Tag _ _ _ => _ | _ => _ end] => destruct n
         | |- context [match lookup ?e ?k ?d with _ => _ end] => destruct (lookup e k d)
         end;
    simpl; try rewrite app_nil_r; reflexivity.
Qed.

Lemma fold_inline_step (l : list node) (acc : list element) :
  fold_left inline_step l acc = acc ++ flat_map (inline_step []) l.
Proof.
  revert acc. induction l as [|n l IH]; intros acc; simpl.
  - now rewrite app_nil_r.
  - rewrite IH, (inline_step_app acc n). now rewrite <- app_assoc.
Qed.

(** [_parse_inline_content] maps each child on its own, in order. *)
Lemma _parse_inline_content_split
    (name : string) (attrs : list (string * string)) (before after : list node) (n : node) :
  _parse_inline_content (Tag name attrs (before ++ n :: after))
  = _parse_inline_content (Tag name attrs before)
      ++ inline_step [] n
      ++ _parse_inline_content (Tag name attrs after).
Proof.
  unfold _parse_inline_content. simpl.
  rewrite !fold_inline_step. simpl.
  rewrite flat_map_app. reflexivity.
Qed.

Lemma fold_parse_elements (l : list node) (acc : list element) :
  fold_left (fun elements child => elements ++ _parse_elements child) l acc
  = acc ++ flat_map _parse_elements l.
Proof.
  revert acc. induction l as [|n l IH]; intros acc; simpl fold_left; simpl flat_map.
  - now rewrite app_nil_r.
  - rewrite IH. now rewrite <- app_assoc.
Qed.

Lemma flat_map_nil {A B : Type} (f : A -> list B) (l : list A) :
  (forall a, In a l -> f a = []) -> flat_map f l = [].
Proof.
  induction l as [|a l IH]; intros H; simpl; [reflexivity|].
  rewrite (H a (or_introl eq_refl)), IH; [reflexivity|].
  intros a' Ha'. apply H. right. exact Ha'.
Qed.

(** The dispatch of [_parse_elements] on a tag, branch by branch. *)
Lemma _parse_elements_Tag
    (name : string) (attrs : list (string * string)) (contents : list node) :
  _parse_elements (Tag name attrs contents) =
  let tag := Tag name attrs contents in
  let tag_name := Str.lower name in
  if mem tag_name ["style"; "script"; "noscript"]%string then []
  else if mem tag_name ["h1"; "h2"; "h3"]%string then
    [Heading (get_text tag) (heading_level tag_name)]
  else if String.eqb tag_name "p" then [Paragraph (_parse_inline_content tag)]
  else if String.eqb tag_name "ul" then
    [ListElement (map _parse_inline_content (find_all_children "li" tag))]
  else if String.eqb tag_name "a" then
    if Str.truthy (get_text tag)
    then [Anchor (get_text tag) (dict_get String.eqb attrs "href" "#")%string]
    else []
  else if String.eqb tag_name "button" then [Button (get_text tag)]
  else if String.eqb tag_name "img" then
    match lookup String.eqb "src"%string attrs with
    | Some src => [ImageElement src None 80]
    | None => []
    end
  else
    let elements := flat_map _parse_elements contents in
    match elements with
    | _ :: _ => elements
    | [] => if Str.truthy (get_text tag) then [TextNode (get_text tag)] else []
    end.
Proof.
  cbv zeta.
  change (_parse_elements (Tag name attrs contents)) with
    (if false || mem (Str.lower name) ["style"; "script"; "noscript"]%string then []
     else
       if mem (Str.lower name) ["h1"; "h2"; "h3"]%string then
         [Heading (get_text (Tag name attrs contents)) (heading_level (Str.lower name))]
       else if String.eqb (Str.lower name) "p" then
         [Paragraph (_parse_inline_content (Tag name attrs contents))]
       else if String.eqb (Str.lower name) "ul" then
         [ListElement (map _parse_inline_content
                           (find_all_children "li" (Tag name attrs contents)))]
       else if String.eqb (Str.lower name) "a" then
         if Str.truthy (get_text (Tag name attrs contents))
         then [Anchor (get_text (Tag name attrs contents))
                      (dict_get String.eqb attrs "href" "#")%string]
         else []
       else if String.eqb (Str.lower name) "button" then
         [Button (get_text (Tag name attrs contents))]
       else if String.eqb (Str.lower name) "img" then
         match lookup String.eqb "src"%string attrs with
         | Some src => [ImageElement src None 80]
         | None => []
         end
       else
         match fold_left (fun elements child => elements ++ _parse_elements child)
                         contents [] with
         | _ :: _ =>
             fold_left (fun elements child => elements ++ _parse_elements child)
                       contents []
         | [] => if Str.truthy (get_text (Tag name attrs contents))
                 then [TextNode (get_text (Tag name attrs contents))] else []
         end).
  rewrite fold_parse_elements. reflexivity.
Qed.

(** A string leaf of any kind is mapped at block level by its stripped
    characters: the test for [str] comes first. *)
Lemma _parse_elements_str_leaf (n : node) :
  isinstance_str n = true ->
  _parse_elements n =
  if Str.truthy (Str.strip (str_value n)) then [TextNode (Str.strip (str_value n))] else [].
Proof.
  intros H. destruct n; [discriminate H | reflexivity | reflexivity | reflexivity].
Qed.

(** ** Comments and doctypes at block level *)

(** C2. A comment or a doctype that block-level mapping meets is a [str]
    for the first test of [_parse_elements], so its stripped characters
    come out as a [TextNode]: a comment inside a [div] becomes visible
    text.  The inline mapper, which tests for comments first, drops the
    same node. *)
Theorem comment_and_doctype_leak_as_text :
  _parse_elements (Comment " secret ") = [TextNode "secret"] /\
  _parse_elements (Doctype "html") = [TextNode "html"] /\
  _parse_elements commented_div = [TextNode "secret"] /\
  _parse_inline_content (Tag "p" [] [Comment " secret "]) = [].
Proof.
  repeat split; reflexivity.
Qed.

(** Only a comment or doctype that is blank after stripping yields nothing
    at block level. *)
Lemma _parse_elements_comment (s : string) :
  _parse_elements (Comment s) =
  if Str.truthy (Str.strip s) then [TextNode (Str.strip s)] else [].
Proof. reflexivity. Qed.

Lemma _parse_elements_doctype (s : string) :
  _parse_elements (Doctype s) =
  if Str.truthy (Str.strip s) then [TextNode (Str.strip s)] else [].
Proof. reflexivity. Qed.

(** ** Empty tags *)

Ltac split_mem H :=
  unfold mem in H; cbn [existsb] in H;
  repeat (apply orb_false_elim in H; destruct H as [? H]).

Lemma empty_tag_is_dropped
    (name : string) (attrs : list (string * string)) (contents : list node) :
  mem (Str.lower name) ["h1"; "h2"; "h3"; "p"; "ul"; "button"]%string = false ->
  (Str.lower name = "img"%string -> lookup String.eqb "src"%string attrs = None) ->
  get_text (Tag name attrs contents) = EmptyString ->
  (forall child, In child contents -> _parse_elements child = []) ->
  _parse_elements (Tag name attrs contents) = [].
Proof.
  intros Hname Himg Htext Hchildren.
  rewrite _parse_elements_Tag. cbv zeta.
  split_mem Hname.
  destruct (mem (Str.lower name) ["style"; "script"; "noscript"]%string); [reflexivity|].
  replace (mem (Str.lower name) ["h1"; "h2"; "h3"]%string) with false
    by (unfold mem; cbn [existsb]; repeat match goal with
                                          | E : String.eqb _ _ = false |- _ => rewrite E; clear E
                                          end; reflexivity).
  repeat match goal with
         | E : String.eqb _ _ = false |- _ => rewrite E; clear E
         end.
  rewrite Htext. cbn [Str.truthy].
  destruct (String.eqb (Str.lower name) "a"); [reflexivity|].
  destruct (String.eqb_spec (Str.lower name) "img") as [E|_].
  - now rewrite (Himg E).
  - now rewrite (flat_map_nil _ _ Hchildren).
Qed.

(** C4, as amended. A tag that is not a heading, a paragraph, a list or a
    button, and is not an image with a source, maps to nothing when its
    trimmed text is empty and none of its children produces an element.
    A tag named [h1], [h2], [h3], [p], [ul] or [button], in any letter
    case, always maps to exactly one element (a heading, a paragraph, a
    list, a button), whatever it holds and also when it is empty. *)
Theorem empty_tag_maps_to_nothing
    (name : string) (attrs : list (string * string)) (contents : list node) :
  let tag := Tag name attrs contents in
  (mem (Str.lower name) ["h1"; "h2"; "h3"; "p"; "ul"; "button"]%string = false ->
   (Str.lower name = "img"%string -> lookup String.eqb "src"%string attrs = None) ->
   get_text tag = EmptyString ->
   (forall child, In child contents -> _parse_elements child = []) ->
   _parse_elements tag = []) /\
  (In (Str.lower name) ["h1"; "h2"; "h3"]%string ->
   _parse_elements tag = [Heading (get_text tag) (heading_level (Str.lower name))]) /\
  (Str.lower name = "p"%string ->
   _parse_elements tag = [Paragraph (_parse_inline_content tag)]) /\
  (Str.lower name = "ul"%string ->
   _parse_elements tag
   = [ListElement (map _parse_inline_content (find_all_children "li" tag))]) /\
  (Str.lower name = "button"%string ->
   _parse_elements tag = [Button (get_text tag)]).
Proof.
  cbv zeta. split; [apply empty_tag_is_dropped|].
  repeat split; intros Hname; rewrite _parse_elements_Tag; cbv zeta.
  - destruct Hname as [E | [E | [E | []]]]; rewrite <- E; reflexivity.
  - rewrite Hname. reflexivity.
  - rewrite Hname. reflexivity.
  - rewrite Hname. reflexivity.
Qed.

(** An empty container, an empty paragraph, an empty heading, an empty
    list and an empty button. *)
Lemma empty_tag_maps_to_nothing_witness :
  _parse_elements empty_div = [] /\
  _parse_elements (Tag "H3" [] []) = [Heading EmptyString 3] /\
  _parse_elements (Tag "P" [] []) = [Paragraph []] /\
  _parse_elements (Tag "ul" [] []) = [ListElement []] /\
  _parse_elements (Tag "Button" [] []) = [Button EmptyString].
Proof.
  split; [|split; [|split; [|split]]].
  - apply (proj1 (empty_tag_maps_to_nothing "div"
                    [] [Tag "span" [] []; NavigableString "  "; Tag "a" [] []])).
    + reflexivity.
    + intros H. discriminate H.
    + reflexivity.
    + intros child [<- | [<- | [<- | []]]]; reflexivity.
  - apply (proj1 (proj2 (empty_tag_maps_to_nothing "H3" [] []))).
    right. right. left. reflexivity.
  - apply (proj1 (proj2 (proj2 (empty_tag_maps_to_nothing "P" [] [])))).
    reflexivity.
  - apply (proj1 (proj2 (proj2 (proj2 (empty_tag_maps_to_nothing "ul" [] []))))).
    reflexivity.
  - apply (proj2 (proj2 (proj2 (proj2 (empty_tag_maps_to_nothing "Button" [] []))))).
    reflexivity.
Defined.

(** C4, as stated, fails: an empty paragraph has no text and no children,
    and is still mapped to a (contentless) [Paragraph]. *)
Lemma empty_paragraph_is_emitted :
  ~ (forall (name : string) (attrs : list (string * string)) (contents : list node),
       get_text (Tag name attrs contents) = EmptyString ->
       (forall child, In child contents -> _parse_elements child = []) ->
       _parse_elements (Tag name attrs contents) = []).
Proof.
  intros H.
  specialize (H "p"%string [] [] eq_refl (fun child (Hin : In child []) => match Hin with end)).
  discriminate H.
Qed.

(** The tags with a branch of their own that always emits: one element,
    whatever the tag holds. *)
Lemma placeholder_tags_always_emit (attrs : list (string * string)) (contents : list node) :
  (exists text level, _parse_elements (Tag "h1" attrs contents) = [Heading text level]) /\
  (exists parts, _parse_elements (Tag "p" attrs contents) = [Paragraph parts]) /\
  (exists items, _parse_elements (Tag "ul" attrs contents) = [ListElement items]) /\
  (exists label, _parse_elements (Tag "button" attrs contents) = [Button label]).
Proof.
  repeat split; rewrite _parse_elements_Tag; eexists; try eexists; reflexivity.
Qed.

(** ** Scenario A *)

(** C5, as amended. The document of scenario A maps to the title ["T"]
    and to two elements: the text of the [title] tag, which the mapper
    treats as any other container, and then the paragraph with
    [Text("Hi")] and [Link("there", "x")]. *)
Theorem scenario_A_title_text_then_paragraph :
  parse scenario_A
  = ([TextNode "T"; Paragraph [TextNode "Hi"; Anchor "there" "x"]], "T"%string).
Proof. reflexivity. Qed.

(** C5, as stated, fails: the paragraph is not the only element. *)
Lemma scenario_A_not_one_element :
  ~ (snd (parse scenario_A) = "T"%string /\
     fst (parse scenario_A) = [Paragraph [TextNode "Hi"; Anchor "there" "x"]]).
Proof.
  intros [_ H]. vm_compute in H. discriminate H.
Qed.

(** ** Links *)

(** C6. A tag named [a] (in any letter case) maps, at block level and at
    inline level alike, to one [Anchor] with the tag's trimmed text and its
    [href] attribute, or ["#"] when it has none; with an empty trimmed text
    it maps to nothing. *)
Theorem a_tag_maps_to_link
    (name : string) (attrs : list (string * string)) (contents : list node) :
  Str.lower name = "a"%string ->
  let tag := Tag name attrs contents in
  let text := get_text tag in
  let href :=
    match lookup String.eqb "href"%string attrs with
    | Some target => target
    | None => "#"%string
    end in
  let produced := if Str.truthy text then [Anchor text href] else [] in
  _parse_elements tag = produced /\
  (forall pname pattrs before after,
     _parse_inline_content (Tag pname pattrs (before ++ tag :: after))
     = _parse_inline_content (Tag pname pattrs before)
         ++ produced ++ _parse_inline_content (Tag pname pattrs after)) /\
  (text = EmptyString -> produced = []).
Proof.
  intros Hname tag text href produced. split; [|split].
  - unfold tag. rewrite _parse_elements_Tag. cbv zeta. rewrite Hname. reflexivity.
  - intros pname pattrs before after.
    rewrite _parse_inline_content_split. f_equal. f_equal.
    unfold tag, inline_step.
    cbn [isinstance_Comment_Doctype isinstance_str]. rewrite Hname. reflexivity.
  - intros Htext. unfold produced. now rewrite Htext.
Qed.

Lemma a_tag_maps_to_link_witness :
  _parse_elements upper_case_link = [Anchor "there" "#"] /\
  (forall pname pattrs before after,
     _parse_inline_content (Tag pname pattrs (before ++ upper_case_link :: after))
     = _parse_inline_content (Tag pname pattrs before)
         ++ [Anchor "there" "#"] ++ _parse_inline_content (Tag pname pattrs after)) /\
  ("there"%string = EmptyString -> [Anchor "there" "#"] = []).
Proof.
  apply (a_tag_maps_to_link "A" [("class", "nav")%string] [NavigableString " there "]).
  reflexivity.
Defined.

(** ** The noise filter of inline content *)

(** What one raw text node contributes to inline content. *)
Lemma inline_step_text (s : string) :
  inline_step [] (NavigableString s) =
  let text := Str.strip s in
  if Str.truthy text
     && negb (Str.contains "endif" (Str.lower text))
     && negb (Str.contains "[if" (Str.lower text))
     && negb (Str.contains "<!" text)
  then [TextNode text] else [].
Proof. reflexivity. Qed.

(** C7. A raw text node among the children of a paragraph or a list item
    contributes nothing to the inline content when its trimmed text is
    empty, or contains ["endif"] or ["[if"] once lowered, or contains
    ["<!"]; the residue [<!--[if IE]>hi<![endif]-->] is such a node, in a
    paragraph and in a list item. *)
Theorem noise_text_is_dropped (s : string) :
  let text := Str.strip s in
  text = EmptyString \/
  Str.contains "endif" (Str.lower text) = true \/
  Str.contains "[if" (Str.lower text) = true \/
  Str.contains "<!" text = true ->
  (forall pname pattrs before after,
     _parse_inline_content (Tag pname pattrs (before ++ NavigableString s :: after))
     = _parse_inline_content (Tag pname pattrs before)
         ++ _parse_inline_content (Tag pname pattrs after)) /\
  _parse_elements (Tag "p" [] [NavigableString conditional_comment]) = [Paragraph []] /\
  _parse_elements (Tag "ul" [] [Tag "li" [] [NavigableString conditional_comment]])
  = [ListElement [[]]].
Proof.
  intros text Hnoise. split; [|split; reflexivity].
  intros pname pattrs before after.
  rewrite _parse_inline_content_split, inline_step_text. cbv zeta. fold text.
  replace (Str.truthy text
           && negb (Str.contains "endif" (Str.lower text))
           && negb (Str.contains "[if" (Str.lower text))
           && negb (Str.contains "<!" text)) with false; [reflexivity|].
  destruct Hnoise as [-> | [H | [H | H]]]; [reflexivity | | |];
    rewrite H; cbn [negb]; now rewrite ?andb_false_r.
Qed.

Lemma noise_text_is_dropped_witness :
  (forall pname pattrs before after,
     _parse_inline_content
       (Tag pname pattrs (before ++ NavigableString conditional_comment :: after))
     = _parse_inline_content (Tag pname pattrs before)
         ++ _parse_inline_content (Tag pname pattrs after)) /\
  _parse_elements (Tag "p" [] [NavigableString conditional_comment]) = [Paragraph []] /\
  _parse_elements (Tag "ul" [] [Tag "li" [] [NavigableString conditional_comment]])
  = [ListElement [[]]].
Proof.
  apply (noise_text_is_dropped conditional_comment).
  right. left. reflexivity.
Defined.

(** The same in terms of substrings, for the two lowered patterns. *)
Lemma noise_substring_is_dropped (s pattern before after : string) :
  In pattern ["endif"; "[if"]%string ->
  Str.lower (Str.strip s) = (before ++ pattern ++ after)%string ->
  inline_step [] (NavigableString s) = [].
Proof.
  intros Hpat Hsub. rewrite inline_step_text. cbv zeta.
  assert (Hc : Str.contains pattern (Str.lower (Str.strip s)) = true).
  { apply contains_iff. exists before, after. exact Hsub. }
  destruct Hpat as [<- | [<- | []]]; rewrite Hc; cbn [negb];
    now rewrite ?andb_false_r.
Qed.

(** The filter is exactly that: any other raw text node contributes its
    trimmed text. *)
Lemma clean_text_is_kept (s : string) :
  Str.strip s <> EmptyString ->
  Str.contains "endif" (Str.lower (Str.strip s)) = false ->
  Str.contains "[if" (Str.lower (Str.strip s)) = false ->
  Str.contains "<!" (Str.strip s) = false ->
  inline_step [] (NavigableString s) = [TextNode (Str.strip s)].
Proof.
  intros Hne H1 H2 H3. rewrite inline_step_text. cbv zeta.
  rewrite H1, H2, H3.
  destruct (Str.strip s); [contradiction | reflexivity].
Qed.

(** ** Headings *)

Lemma heading_style_default (level : Z) :
  level <> 1 -> level <> 2 -> heading_style level = YELLOW_FG.
Proof.
  intros H1 H2. unfold heading_style, dict_get. cbn [lookup].
  destruct (Z.eqb_spec level 1); [contradiction|].
  destruct (Z.eqb_spec level 2); [contradiction|].
  reflexivity.
Qed.

Lemma mul_hash_fits (level : Z) :
  - 2 ^ 63 <= level < 2 ^ 63 -> Str.mul "#" level = Ok (Str.repeat "#" level).
Proof.
  intros Hfit. unfold Str.mul, Str.PY_SSIZE_T_MAX.
  replace (level <? - (2 ^ 63 - 1) - 1) with false by (symmetry; apply Z.ltb_ge; lia).
  replace (2 ^ 63 - 1 <? level) with false by (symmetry; apply Z.ltb_ge; lia).
  cbn [orb].
  destruct (Z.ltb_spec 0 level) as [Hpos|_]; [|reflexivity].
  replace ((2 ^ 63 - 1) / level <? Z.of_nat (String.length "#")) with false;
    [reflexivity|].
  symmetry. apply Z.ltb_ge. change (Z.of_nat (String.length "#")) with 1.
  apply Z.div_le_lower_bound; lia.
Qed.

Lemma mul_beyond_index (s : string) (n : Z) :
  n < - 2 ^ 63 \/ 2 ^ 63 <= n -> Str.mul s n = Raise OverflowError.
Proof.
  intros Hout. unfold Str.mul, Str.PY_SSIZE_T_MAX.
  replace ((n <? - (2 ^ 63 - 1) - 1) || (2 ^ 63 - 1 <? n)) with true; [reflexivity|].
  symmetry. apply orb_true_iff.
  destruct Hout; [left | right]; apply Z.ltb_lt; lia.
Qed.

(** What a heading renders to, at every level that fits an index. *)
Lemma Heading_render_fits (text : string) (level : Z) :
  - 2 ^ 63 <= level < 2 ^ 63 ->
  Heading_render text level
  = Ok (NL ++ BOLD ++ heading_style level ++ Str.repeat "#" level ++ " " ++ text
           ++ RESET ++ NL)%string.
Proof.
  intros Hfit. unfold Heading_render. cbv zeta.
  now rewrite (mul_hash_fits level Hfit).
Qed.

Lemma Heading_render_beyond_index (text : string) (level : Z) :
  level < - 2 ^ 63 \/ 2 ^ 63 <= level ->
  Heading_render text level = Raise OverflowError.
Proof.
  intros Hout. unfold Heading_render. cbv zeta.
  now rewrite (mul_beyond_index "#" level Hout).
Qed.

(** C8, as amended. A heading whose level is none of 1, 2, 3 takes the
    default style of the level table.  When the level fits an index (from
    -2^63 to 2^63 - 1) it renders, to yellow, [level] hash signs (none for
    a level below 1), a space and the text; when it does not, the
    repetition of the hash sign raises an [OverflowError]. *)
Theorem heading_out_of_range_renders
    (ImageElement_render : string -> option string -> Z -> string)
    (text : string) (level : Z) :
  level <> 1 -> level <> 2 -> level <> 3 ->
  heading_style level = YELLOW_FG /\
  (- 2 ^ 63 <= level < 2 ^ 63 ->
   Heading_render text level
   = Ok (NL ++ BOLD ++ YELLOW_FG ++ Str.repeat "#" level ++ " " ++ text
            ++ RESET ++ NL)%string /\
   Heading_render text level = Ok (render ImageElement_render (Heading text level))) /\
  (level < - 2 ^ 63 \/ 2 ^ 63 <= level ->
   Heading_render text level = Raise OverflowError).
Proof.
  intros H1 H2 _.
  pose proof (heading_style_default level H1 H2) as Hstyle.
  split; [exact Hstyle|]. split.
  - intros Hfit. rewrite (Heading_render_fits text level Hfit).
    cbn [render]. unfold Heading_text. rewrite Hstyle. split; reflexivity.
  - apply Heading_render_beyond_index.
Qed.

Lemma heading_out_of_range_renders_witness :
  heading_style 5 = YELLOW_FG /\
  Heading_render "Deep" 5
  = Ok (NL ++ BOLD ++ YELLOW_FG ++ "##### Deep" ++ RESET ++ NL)%string /\
  Heading_render "Deep" (2 ^ 63) = Raise OverflowError /\
  Heading_render "Deep" (- 2 ^ 64) = Raise OverflowError.
Proof.
  destruct (heading_out_of_range_renders (fun _ _ _ => EmptyString) "Deep" 5)
    as [Hstyle [Hfit _]]; [lia | lia | lia |].
  destruct (heading_out_of_range_renders (fun _ _ _ => EmptyString) "Deep" (2 ^ 63))
    as [_ [_ Hbig]]; [lia | lia | lia |].
  destruct (heading_out_of_range_renders (fun _ _ _ => EmptyString) "Deep" (- 2 ^ 64))
    as [_ [_ Hsmall]]; [lia | lia | lia |].
  split; [exact Hstyle|]. split; [|split].
  - apply Hfit. lia.
  - apply Hbig. right. lia.
  - apply Hsmall. left. lia.
Defined.

(** C8, as stated, fails: at the level 2^63, which is none of 1, 2, 3,
    rendering raises. *)
Lemma heading_beyond_index_raises :
  ~ (forall (text : string) (level : Z),
       level <> 1 -> level <> 2 -> level <> 3 ->
       exists rendered, Heading_render text level = Ok rendered).
Proof.
  intros H.
  destruct (H "Deep"%string (2 ^ 63)) as [rendered Hr]; [lia | lia | lia |].
  rewrite Heading_render_beyond_index in Hr by lia. discriminate Hr.
Qed.

Lemma heading_style_cases (level : Z) :
  (level = 1 /\ heading_style level = BLUE_FG) \/
  (level = 2 /\ heading_style level = GREEN_FG) \/
  (level <> 1 /\ level <> 2 /\ heading_style level = YELLOW_FG).
Proof.
  destruct (Z.eq_dec level 1) as [-> | H1]; [left; split; reflexivity|].
  destruct (Z.eq_dec level 2) as [-> | H2]; [right; left; split; reflexivity|].
  right. right. split; [exact H1|]. split; [exact H2|].
  now apply heading_style_default.
Qed.

(** C9. A heading of level 1 renders in blue and one of level 2 in green;
    a heading of level 3 renders in the default yellow, like one of level
    5 and like every other level, so that levels 3 and 5 differ in the
    number of hash signs only.  The level table has entries for 1 and 2
    alone, and the three styles are pairwise different. *)
Theorem heading_levels_one_and_two_only (text : string) :
  Heading_render text 1
  = Ok (NL ++ BOLD ++ BLUE_FG ++ "# " ++ text ++ RESET ++ NL)%string /\
  Heading_render text 2
  = Ok (NL ++ BOLD ++ GREEN_FG ++ "## " ++ text ++ RESET ++ NL)%string /\
  Heading_render text 3
  = Ok (NL ++ BOLD ++ YELLOW_FG ++ "### " ++ text ++ RESET ++ NL)%string /\
  Heading_render text 5
  = Ok (NL ++ BOLD ++ YELLOW_FG ++ "##### " ++ text ++ RESET ++ NL)%string /\
  (forall level,
      - 2 ^ 63 <= level < 2 ^ 63 -> level <> 1 -> level <> 2 ->
      Heading_render text level
      = Ok (NL ++ BOLD ++ YELLOW_FG ++ Str.repeat "#" level ++ " " ++ text
               ++ RESET ++ NL)%string) /\
  heading_style 3 = heading_style 5 /\
  (forall level, heading_style level = BLUE_FG <-> level = 1) /\
  (forall level, heading_style level = GREEN_FG <-> level = 2) /\
  (forall level, heading_style level = YELLOW_FG <-> level <> 1 /\ level <> 2) /\
  BLUE_FG <> GREEN_FG /\ BLUE_FG <> YELLOW_FG /\ GREEN_FG <> YELLOW_FG.
Proof.
  split; [reflexivity|]. split; [reflexivity|].
  split; [reflexivity|]. split; [reflexivity|]. split.
  { intros level Hfit H1 H2.
    rewrite (Heading_render_fits text level Hfit).
    now rewrite (heading_style_default level H1 H2). }
  split; [reflexivity|].
  repeat split; intros;
    try discriminate;
    destruct (heading_style_cases level) as [[E S] | [[E S] | [E1 [E2 S]]]];
    try subst level; try lia; try reflexivity; try congruence;
    try (rewrite S in *; discriminate).
Qed.

(** * Further properties of the code *)

(** ** Stripping *)

Lemma lstrip_by_head (p : ascii -> bool) (s : string) :
  head_kept p (Str.lstrip_by p s).
Proof.
  induction s as [|c s IH]; simpl; [exact I|].
  destruct (p c) eqn:E; [exact IH | exact E].
Qed.

Lemma lstrip_by_fixed (p : ascii -> bool) (s : string) :
  head_kept p s -> Str.lstrip_by p s = s.
Proof.
  destruct s as [|c s]; simpl; [reflexivity|]. now intros ->.
Qed.

Lemma rstrip_by_head (p : ascii -> bool) (s : string) :
  head_kept p s -> head_kept p (Str.rstrip_by p s).
Proof.
  destruct s as [|c s]; simpl; [exact (fun H => H)|].
  intros Hc. destruct (Str.rstrip_by p s); [rewrite Hc|]; exact Hc.
Qed.

Lemma rstrip_by_idempotent (p : ascii -> bool) (s : string) :
  Str.rstrip_by p (Str.rstrip_by p s) = Str.rstrip_by p s.
Proof.
  induction s as [|c s IH]; simpl; [reflexivity|].
  destruct (Str.rstrip_by p s) as [|d t] eqn:E.
  - destruct (p c) eqn:Hc; simpl; [reflexivity | now rewrite Hc].
  - change (Str.rstrip_by p (String c (String d t))) with
      (match Str.rstrip_by p (String d t) with
       | EmptyString => if p c then EmptyString else String c EmptyString
       | String d' t' => String c (String d' t')
       end).
    now rewrite IH.
Qed.

Lemma strip_idempotent (s : string) : Str.strip (Str.strip s) = Str.strip s.
Proof.
  unfold Str.strip.
  rewrite (lstrip_by_fixed Str.isspace (Str.rstrip_by Str.isspace (Str.lstrip_by Str.isspace s))).
  - apply rstrip_by_idempotent.
  - apply rstrip_by_head, lstrip_by_head.
Qed.

Lemma length_append (a b : string) :
  String.length (a ++ b) = (String.length a + String.length b)%nat.
Proof.
  induction a as [|c a IH]; simpl; [reflexivity | now rewrite IH].
Qed.

Lemma rstrip_by_length (p : ascii -> bool) (s : string) :
  (String.length (Str.rstrip_by p s) <= String.length s)%nat.
Proof.
  induction s as [|c s IH]; simpl; [lia|].
  destruct (Str.rstrip_by p s); [destruct (p c)|]; simpl in *; lia.
Qed.

Lemma rstrip_by_snoc (p : ascii -> bool) (s : string) (c : ascii) :
  p c = true -> Str.rstrip_by p (s ++ String c EmptyString) = Str.rstrip_by p s.
Proof.
  intros Hc. induction s as [|a s IH]; simpl.
  - now rewrite Hc.
  - now rewrite IH.
Qed.

(** What [rstrip] returns does not end with a stripped character. *)
Lemma rstrip_by_no_tail (p : ascii -> bool) (s t : string) (c : ascii) :
  p c = true -> Str.rstrip_by p s <> (t ++ String c EmptyString)%string.
Proof.
  intros Hc E.
  pose proof (rstrip_by_idempotent p s) as Hid.
  rewrite E, (rstrip_by_snoc p t c Hc) in Hid.
  pose proof (rstrip_by_length p t) as Hlen.
  rewrite Hid, length_append in Hlen. simpl in Hlen. lia.
Qed.

(** A string that does not end with a stripped character is left alone. *)
Lemma rstrip_by_fixed (p : ascii -> bool) (s : string) :
  (forall t c, p c = true -> s <> (t ++ String c EmptyString)%string) ->
  Str.rstrip_by p s = s.
Proof.
  induction s as [|a s IH]; intros Hs; simpl; [reflexivity|].
  rewrite IH.
  - destruct s as [|b s]; [|reflexivity].
    destruct (p a) eqn:Ha; [|reflexivity].
    exfalso. apply (Hs EmptyString a Ha). reflexivity.
  - intros t c Hc E. apply (Hs (String a t) c Hc). simpl. now rewrite E.
Qed.

(** ** More on the rasterizer *)

Lemma for_each_map {A B : Type} (f : A -> result B) (g : A -> B) (l : list A) :
  (forall a, In a l -> f a = Ok (g a)) -> for_each f l = Ok (map g l).
Proof.
  induction l as [|a l IH]; intros H; simpl; [reflexivity|].
  rewrite (H a (or_introl eq_refl)), IH; [reflexivity|].
  intros a' Ha'. apply H. now right.
Qed.

(** X1. Whenever the three sizes are computed, the character height is at
    least 1, the pixel height of the resized image is even, and its pixel
    width does not exceed [max_width]. *)
Theorem target_dimensions_bounds
    (original_width original_height max_width : Z) (ar : Float.float) (d : dimensions) :
  target_dimensions original_width original_height max_width ar = Ok d ->
  1 <= target_height_chars d /\
  Z.even (resized_height_pixels d) = true /\
  resized_width_pixels d <= max_width.
Proof.
  intros H.
  destruct (target_dimensions_sound _ _ _ _ _ H) as [H1 H2].
  split; [exact H1|]. split; [exact H2|].
  unfold target_dimensions in H.
  repeat match type of H with
         | bind ?c _ = Ok _ => destruct c; simpl in H; [|discriminate H]
         end.
  match type of H with
  | (if ?b then _ else _) = _ => destruct b eqn:Hcap
  end.
  - repeat match type of H with
           | bind ?c _ = Ok _ => destruct c; simpl in H; [|discriminate H]
           end.
    injection H as <-. simpl. lia.
  - injection H as <-. simpl.
    rewrite Z.gtb_ltb in Hcap. apply Z.ltb_ge in Hcap. exact Hcap.
Qed.

Lemma target_dimensions_bounds_witness :
  1 <= 20 /\ Z.even 40 = true /\ 80 <= 80.
Proof.
  apply (target_dimensions_bounds 100 50 80 Float.half
           {| target_height_chars := 20;
              resized_width_pixels := 80;
              resized_height_pixels := 40 |}).
  reflexivity.
Defined.

(** X2. The lines of the row-pair loop, cell by cell: line [y / 2] has one
    cell per column, each the foreground code of the pixel in row
    [min(y + 1, h - 1)], the background code of the pixel in row [y] and
    the half block, and the line ends with the reset code. *)
Theorem art_lines_cells (img : image) (w h : Z) :
  size img = (w, h) ->
  art_lines img w h =
  Ok (map (fun y =>
             (Str.join ""
                (map (fun x =>
                        rgb_to_ansi_fg (pixels img x (Z.min (y + 1) (h - 1)))
                          ++ rgb_to_ansi_bg (pixels img x y) ++ LOWER_HALF_BLOCK)
                     (range 0 w 1)) ++ RESET)%string)
          (range 0 h 2)).
Proof.
  intros Hsz. unfold art_lines. apply for_each_map.
  intros y Hy. apply (in_range 0 h 2 y) in Hy; [|lia].
  unfold art_line.
  rewrite (for_each_map _
             (fun x => (rgb_to_ansi_fg (pixels img x (Z.min (y + 1) (h - 1)))
                          ++ rgb_to_ansi_bg (pixels img x y) ++ LOWER_HALF_BLOCK)%string)).
  - reflexivity.
  - intros x Hx. apply (in_range 0 w 1 x) in Hx; [|lia].
    unfold art_cell.
    rewrite (getpixel_in_bounds img w h x y Hsz) by lia.
    rewrite (getpixel_in_bounds img w h x (Z.min (y + 1) (h - 1)) Hsz) by lia.
    reflexivity.
Qed.

Lemma art_lines_cells_witness :
  art_lines odd_height_image 1 3 =
  Ok (map (fun y =>
             (Str.join ""
                (map (fun x =>
                        rgb_to_ansi_fg (pixels odd_height_image x (Z.min (y + 1) (3 - 1)))
                          ++ rgb_to_ansi_bg (pixels odd_height_image x y) ++ LOWER_HALF_BLOCK)
                     (range 0 1 1)) ++ RESET)%string)
          (range 0 3 2)).
Proof.
  apply (art_lines_cells odd_height_image 1 3). reflexivity.
Defined.



(** X4. Once the sizes are computed, the rasterizer has two outcomes: a
    resized width or height below 1 is a [ValueError] of [resize];
    otherwise it returns lines, half as many as the resized image has
    pixel rows. *)
Theorem image_to_terminal_art_outcome
    (LANCZOS : image -> Z * Z -> Z -> Z -> rgb) (img : image)
    (max_width : Z) (ar : Float.float) (d : dimensions) :
  target_dimensions (fst (size img)) (snd (size img)) max_width ar = Ok d ->
  (resized_width_pixels d < 1 \/ resized_height_pixels d < 1 ->
   image_to_terminal_art LANCZOS img max_width ar = Raise ValueError) /\
  (1 <= resized_width_pixels d -> 1 <= resized_height_pixels d ->
   exists output_lines,
     image_to_terminal_art LANCZOS img max_width ar = Ok output_lines /\
     Z.of_nat (List.length output_lines) * 2 = resized_height_pixels d).
Proof.
  intros Hd. destruct (size img) as [W H] eqn:Hsz. simpl in Hd. split.
  - intros Hsmall. unfold image_to_terminal_art. rewrite Hsz, Hd. simpl.
    replace ((resized_width_pixels d <? 1) || (resized_height_pixels d <? 1)) with true;
      [reflexivity|].
    symmetry. apply orb_true_iff.
    destruct Hsmall; [left | right]; now apply Z.ltb_lt.
  - intros Hw Hh.
    destruct (image_to_terminal_art_lines LANCZOS img W H max_width ar d Hsz Hd Hw Hh)
      as [ls [Hls Hlen]].
    exists ls. split; [exact Hls|].
    rewrite Hlen, range_length.
    destruct (target_dimensions_sound _ _ _ _ _ Hd) as [_ Heven].
    apply Z.even_spec in Heven. destruct Heven as [k Hk].
    rewrite Hk. rewrite Z2Nat.id.
    + replace (2 * k - 0 + 2 - 1) with (1 + k * 2) by lia.
      rewrite Z.div_add by lia. change (1 / 2) with 0. lia.
    + apply Z.div_pos; lia.
Qed.

Lemma image_to_terminal_art_outcome_witness :
  (80 < 1 \/ 40 < 1 ->
   image_to_terminal_art paint_black black_100x50 80 Float.half = Raise ValueError) /\
  (1 <= 80 -> 1 <= 40 ->
   exists output_lines,
     image_to_terminal_art paint_black black_100x50 80 Float.half = Ok output_lines /\
     Z.of_nat (List.length output_lines) * 2 = 40).
Proof.
  apply (image_to_terminal_art_outcome paint_black black_100x50 80 Float.half
           {| target_height_chars := 20;
              resized_width_pixels := 80;
              resized_height_pixels := 40 |}).
  reflexivity.
Defined.

(** ** Image elements *)

Lemma truthy_iff (s : string) : Str.truthy s = true <-> s <> EmptyString.
Proof.
  destruct s; simpl; split; intros H; try reflexivity; try discriminate; now try contradiction.
Qed.


(** X5. The locator an image is fetched from: the source itself when there
    is no base, an empty base or a source that does not start with a
    slash; otherwise the base without its trailing slashes, followed by
    the source, so that one more slash at the end of the base changes
    nothing. *)
Theorem image_url_resolution (src base : string) :
  image_url src None = src /\
  image_url src (Some EmptyString) = src /\
  (prefix "/" src = false -> image_url src (Some base) = src) /\
  image_url src (Some (base ++ "/")%string) = image_url src (Some base) /\
  (prefix "/" src = true -> base <> EmptyString ->
   (forall t, base <> (t ++ "/")%string) ->
   image_url src (Some base) = (base ++ src)%string).
Proof.
  split; [reflexivity|]. split; [unfold image_url; now rewrite andb_false_r|].
  split; [intros H; unfold image_url; now rewrite H|]. split.
  - unfold image_url. destruct (prefix "/" src); [|reflexivity]. simpl.
    destruct base as [|c base]; [reflexivity|].
    cbn [append Str.truthy].
    change (String c (base ++ "/")) with (String c base ++ "/")%string.
    now rewrite rstrip_by_snoc.
  - intros Hsrc Hbase Htail. unfold image_url. rewrite Hsrc.
    apply truthy_iff in Hbase. rewrite Hbase. simpl.
    rewrite rstrip_by_fixed; [reflexivity|].
    intros t c Hc. apply Ascii.eqb_eq in Hc. subst c. apply Htail.
Qed.

Lemma image_url_resolution_witness :
  image_url "/logo.png" (Some "http://x.org"%string) = "http://x.org/logo.png"%string /\
  image_url "/logo.png" (Some "http://x.org/"%string)
  = image_url "/logo.png" (Some "http://x.org"%string) /\
  image_url "logo.png" (Some "http://x.org"%string) = "logo.png"%string.
Proof.
  destruct (image_url_resolution "/logo.png" "http://x.org") as [_ [_ [_ [Hslash Hjoin]]]].
  split; [|split].
  - apply Hjoin; [reflexivity | discriminate |].
    intros t E.
    apply (rstrip_by_no_tail (Ascii.eqb "/") "http://x.org" t "/" eq_refl).
    exact E.
  - exact Hslash.
  - destruct (image_url_resolution "logo.png" "http://x.org") as [_ [_ [Hrel _]]].
    apply Hrel. reflexivity.
Defined.

Section ImageProperties.

Variable payload : Type.
Variable requests_get : string -> string + payload.
Variable Image_open : payload -> option image.
Variable LANCZOS : image -> Z * Z -> Z -> Z -> rgb.
Variable exn_text : exn -> string.

Local Abbreviation render_io :=
  (ImageElement_render_io payload requests_get Image_open LANCZOS exn_text).


End ImageProperties.

(** ** Containers of the element model *)

(** X7. A [Div] renders its children between two blank lines on each
    side, and what stands between them neither starts nor ends with a
    newline, however many newlines the children's own renderings carry at
    the two ends. *)
Theorem Div_render_edges
    (ImageElement_render : string -> option string -> Z -> string)
    (elements : list element) :
  exists inner,
    render ImageElement_render (Div elements) = (NL ++ NL ++ inner ++ NL ++ NL)%string /\
    inner = Str.strip_char (ascii_of_nat 10)
              (Str.join "" (map (render ImageElement_render) elements)) /\
    (forall t, inner <> (NL ++ t)%string) /\
    (forall t, inner <> (t ++ NL)%string).
Proof.
  exists (Str.strip_char (ascii_of_nat 10)
            (Str.join "" (map (render ImageElement_render) elements))).
  split; [reflexivity|]. split; [reflexivity|]. split.
  - intros t E.
    pose proof (rstrip_by_head (Ascii.eqb (ascii_of_nat 10)) _
                  (lstrip_by_head (Ascii.eqb (ascii_of_nat 10))
                     (Str.join "" (map (render ImageElement_render) elements)))) as Hhead.
    unfold Str.strip_char in E. rewrite E in Hhead. simpl in Hhead. discriminate Hhead.
  - intros t. unfold Str.strip_char. apply rstrip_by_no_tail. reflexivity.
Qed.

(** ** More on the mapper *)

Ltac rewrite_eqb_false :=
  repeat match goal with
         | E : String.eqb _ _ = false |- _ => rewrite E; clear E
         end.

Lemma mem_true_iff (x : string) (xs : list string) :
  mem x xs = true <-> In x xs.
Proof.
  unfold mem. rewrite existsb_exists. split.
  - intros [y [Hy E]]. apply String.eqb_eq in E. now subst y.
  - intros H. exists x. split; [exact H | apply String.eqb_refl].
Qed.

(** A tag without a branch of its own takes the last one. *)
Lemma _parse_elements_container
    (name : string) (attrs : list (string * string)) (contents : list node) :
  mem (Str.lower name) dispatched_tags = false ->
  _parse_elements (Tag name attrs contents) =
  match flat_map _parse_elements contents with
  | [] => if Str.truthy (get_text (Tag name attrs contents))
          then [TextNode (get_text (Tag name attrs contents))] else []
  | _ :: _ => flat_map _parse_elements contents
  end.
Proof.
  intros Hname. rewrite _parse_elements_Tag. cbv zeta.
  unfold dispatched_tags in Hname. split_mem Hname.
  unfold mem. cbn [existsb]. rewrite_eqb_false. cbn [orb].
  destruct (flat_map _parse_elements contents); reflexivity.
Qed.

(** X8. [style], [script] and [noscript] tags, in any letter case and
    whatever they hold, produce no element at block level and add nothing
    to inline content. *)
Theorem suppressed_tags_produce_nothing
    (name : string) (attrs : list (string * string)) (contents : list node) :
  In (Str.lower name) ["style"; "script"; "noscript"]%string ->
  _parse_elements (Tag name attrs contents) = [] /\
  forall pname pattrs before after,
    _parse_inline_content (Tag pname pattrs (before ++ Tag name attrs contents :: after))
    = _parse_inline_content (Tag pname pattrs before)
        ++ _parse_inline_content (Tag pname pattrs after).
Proof.
  intros Hname. split.
  - rewrite _parse_elements_Tag. cbv zeta.
    apply mem_true_iff in Hname. now rewrite Hname.
  - intros pname pattrs before after.
    rewrite _parse_inline_content_split.
    replace (inline_step [] (Tag name attrs contents)) with (@nil element);
      [reflexivity|].
    unfold inline_step. cbn [isinstance_Comment_Doctype isinstance_str].
    replace (mem (Str.lower name) ["script"; "style"; "noscript"]%string) with true;
      [reflexivity|].
    symmetry. apply mem_true_iff.
    destruct Hname as [<- | [<- | [<- | []]]]; simpl; auto.
Qed.

Lemma suppressed_tags_produce_nothing_witness :
  _parse_elements (Tag "SCRIPT" [] [NavigableString "alert(1)"]) = [] /\
  forall pname pattrs before after,
    _parse_inline_content
      (Tag pname pattrs (before ++ Tag "SCRIPT" [] [NavigableString "alert(1)"] :: after))
    = _parse_inline_content (Tag pname pattrs before)
        ++ _parse_inline_content (Tag pname pattrs after).
Proof.
  apply (suppressed_tags_produce_nothing "SCRIPT" [] [NavigableString "alert(1)"]).
  right. left. reflexivity.
Defined.

(** X9. An [img] tag, at block level and in inline content alike, yields
    one image element with the value of its [src] attribute, no base and
    the width 80, and yields nothing when it has no [src]; what the tag
    holds plays no part. *)
Theorem img_tag_maps_to_image
    (name : string) (attrs : list (string * string)) (contents : list node) :
  Str.lower name = "img"%string ->
  let produced :=
    match lookup String.eqb "src"%string attrs with
    | Some src => [ImageElement src None 80]
    | None => []
    end in
  _parse_elements (Tag name attrs contents) = produced /\
  inline_step [] (Tag name attrs contents) = produced.
Proof.
  intros Hname produced. split.
  - rewrite _parse_elements_Tag. cbv zeta. rewrite Hname. reflexivity.
  - unfold inline_step. cbn [isinstance_Comment_Doctype isinstance_str].
    rewrite Hname. cbn. unfold produced.
    destruct (lookup String.eqb "src"%string attrs); reflexivity.
Qed.

Lemma img_tag_maps_to_image_witness :
  _parse_elements (Tag "img" [("alt", "logo")%string] []) = [] /\
  inline_step [] (Tag "img" [("alt", "logo")%string] []) = [].
Proof.
  apply (img_tag_maps_to_image "img" [("alt", "logo")%string] []). reflexivity.
Defined.

(** X10. A tag named [h1], [h2] or [h3] (in any letter case) maps to one
    heading whose text is the tag's trimmed text and whose level is the
    digit of the name, so a heading built by the mapper has a level from
    1 to 3. *)
Theorem heading_tag_maps_to_heading
    (name : string) (attrs : list (string * string)) (contents : list node) :
  In (Str.lower name) ["h1"; "h2"; "h3"]%string ->
  exists level,
    1 <= level <= 3 /\
    Str.lower name = ("h" ++ Str.of_int level)%string /\
    _parse_elements (Tag name attrs contents)
    = [Heading (get_text (Tag name attrs contents)) level].
Proof.
  intros Hname. rewrite _parse_elements_Tag. cbv zeta.
  destruct Hname as [E | [E | [E | []]]]; rewrite <- E;
    [exists 1 | exists 2 | exists 3]; (split; [lia|]); split; reflexivity.
Qed.

Lemma heading_tag_maps_to_heading_witness :
  exists level,
    1 <= level <= 3 /\
    Str.lower "H2" = ("h" ++ Str.of_int level)%string /\
    _parse_elements (Tag "H2" [] [NavigableString " News "])
    = [Heading (get_text (Tag "H2" [] [NavigableString " News "])) level].
Proof.
  apply (heading_tag_maps_to_heading "H2" [] [NavigableString " News "]).
  right. left. reflexivity.
Defined.

Lemma inline_step_shape (n : node) : forallb inline_shape (inline_step [] n) = true.
Proof.
  unfold inline_step.
  destruct (isinstance_Comment_Doctype n); [reflexivity|].
  destruct (isinstance_str n).
  - destruct (Str.truthy (Str.strip (str_value n))) eqn:E; [|reflexivity].
    cbn [andb].
    destruct (negb _ && negb _ && negb _); [|reflexivity].
    simpl. now rewrite E.
  - destruct n as [name attrs contents| | |]; try reflexivity.
    cbv zeta.
    destruct (mem _ _); [reflexivity|].
    destruct (String.eqb _ "a").
    + destruct (Str.truthy _) eqn:E; [|reflexivity]. simpl. now rewrite E.
    + destruct (String.eqb _ "img").
      * destruct (lookup _ _ _); reflexivity.
      * destruct (Str.truthy _) eqn:E; [|reflexivity]. simpl. now rewrite E.
Qed.

Lemma forallb_flat_map {A B : Type} (p : B -> bool) (f : A -> list B) (l : list A) :
  (forall a, In a l -> forallb p (f a) = true) ->
  forallb p (flat_map f l) = true.
Proof.
  induction l as [|a l IH]; intros H; simpl; [reflexivity|].
  rewrite forallb_app, (H a (or_introl eq_refl)), IH; [reflexivity|].
  intros a' Ha'. apply H. now right.
Qed.

(** X11. The inline content of any tag holds only texts, links and
    images; its texts and links are never empty, and its images have no
    base and the width 80. *)
Theorem inline_content_shape (parent_tag : node) :
  forallb inline_shape (_parse_inline_content parent_tag) = true.
Proof.
  unfold _parse_inline_content. rewrite fold_inline_step. simpl.
  apply forallb_flat_map. intros n _. apply inline_step_shape.
Qed.

(** X12. Whatever the tree, block-level mapping builds only well-shaped
    elements: no [Div]; no empty text or link; paragraphs and list items
    made of texts, links and images only; headings of level 1 to 3; images
    without a base and of width 80. *)
Theorem block_elements_shape (n : node) :
  forallb block_shape (_parse_elements n) = true.
Proof.
  induction n as [name attrs contents IH | s | s | s] using node_tree_ind.
  - rewrite _parse_elements_Tag. cbv zeta.
    destruct (mem _ ["style"; "script"; "noscript"]%string); [reflexivity|].
    destruct (mem (Str.lower name) ["h1"; "h2"; "h3"]%string) eqn:Hh.
    { apply mem_true_iff in Hh.
      destruct Hh as [E | [E | [E | []]]]; rewrite <- E; reflexivity. }
    destruct (String.eqb _ "p").
    { cbn [forallb block_shape]. now rewrite inline_content_shape. }
    destruct (String.eqb _ "ul").
    { cbn [forallb block_shape]. rewrite andb_true_r.
      apply forallb_forall. intros item Hitem.
      apply in_map_iff in Hitem. destruct Hitem as [li [<- _]].
      apply inline_content_shape. }
    destruct (String.eqb _ "a").
    { destruct (Str.truthy _) eqn:E; [|reflexivity]. simpl. now rewrite E. }
    destruct (String.eqb _ "button"); [reflexivity|].
    destruct (String.eqb _ "img").
    { destruct (lookup _ _ _); reflexivity. }
    assert (Hall : forallb block_shape (flat_map _parse_elements contents) = true).
    { apply forallb_flat_map. intros c Hc.
      rewrite Forall_forall in IH. now apply IH. }
    destruct (flat_map _parse_elements contents); [|exact Hall].
    destruct (Str.truthy _) eqn:E; [|reflexivity]. simpl. now rewrite E.
  - simpl. destruct (Str.truthy _) eqn:E; [|reflexivity]. simpl. now rewrite E.
  - simpl. destruct (Str.truthy _) eqn:E; [|reflexivity]. simpl. now rewrite E.
  - simpl. destruct (Str.truthy _) eqn:E; [|reflexivity]. simpl. now rewrite E.
Qed.

(** X13. A container (any tag without a branch of its own) whose children
    produce something maps to exactly what its children map to, in
    order; its name and attributes leave no trace, so wrapping it in one
    more container changes nothing, and the children of two such
    containers put side by side map to the two results side by side. *)
Theorem container_flattens
    (name : string) (attrs : list (string * string)) (contents : list node) :
  mem (Str.lower name) dispatched_tags = false ->
  flat_map _parse_elements contents <> [] ->
  _parse_elements (Tag name attrs contents) = flat_map _parse_elements contents /\
  (forall outer oattrs,
      mem (Str.lower outer) dispatched_tags = false ->
      _parse_elements (Tag outer oattrs [Tag name attrs contents])
      = _parse_elements (Tag name attrs contents)) /\
  (forall more,
      flat_map _parse_elements more <> [] ->
      _parse_elements (Tag name attrs (contents ++ more))
      = _parse_elements (Tag name attrs contents) ++ _parse_elements (Tag name attrs more)).
Proof.
  intros Hname Hsome.
  assert (Hflat : forall cs, flat_map _parse_elements cs <> [] ->
                             _parse_elements (Tag name attrs cs) = flat_map _parse_elements cs).
  { intros cs Hcs. rewrite (_parse_elements_container name attrs cs Hname).
    destruct (flat_map _parse_elements cs); [contradiction | reflexivity]. }
  split; [now apply Hflat|]. split.
  - intros outer oattrs Houter.
    rewrite (_parse_elements_container outer oattrs _ Houter).
    cbn [flat_map]. rewrite app_nil_r, (Hflat contents Hsome).
    destruct (flat_map _parse_elements contents); [contradiction | reflexivity].
  - intros more Hmore.
    rewrite (Hflat contents Hsome), (Hflat more Hmore).
    rewrite Hflat; [apply flat_map_app|].
    rewrite flat_map_app. intros E. apply app_eq_nil in E. now destruct E.
Qed.

Lemma container_flattens_witness :
  _parse_elements (Tag "section" [("id", "main")%string]
                     [Tag "button" [] [NavigableString "Go"]; NavigableString " now "])
  = flat_map _parse_elements
      [Tag "button" [] [NavigableString "Go"]; NavigableString " now "] /\
  (forall outer oattrs,
      mem (Str.lower outer) dispatched_tags = false ->
      _parse_elements
        (Tag outer oattrs
           [Tag "section" [("id", "main")%string]
              [Tag "button" [] [NavigableString "Go"]; NavigableString " now "]])
      = _parse_elements
          (Tag "section" [("id", "main")%string]
             [Tag "button" [] [NavigableString "Go"]; NavigableString " now "])) /\
  (forall more,
      flat_map _parse_elements more <> [] ->
      _parse_elements
        (Tag "section" [("id", "main")%string]
           ([Tag "button" [] [NavigableString "Go"]; NavigableString " now "] ++ more))
      = _parse_elements
          (Tag "section" [("id", "main")%string]
             [Tag "button" [] [NavigableString "Go"]; NavigableString " now "])
          ++ _parse_elements (Tag "section" [("id", "main")%string] more)).
Proof.
  apply (container_flattens "section" [("id", "main")%string]
           [Tag "button" [] [NavigableString "Go"]; NavigableString " now "]).
  - reflexivity.
  - discriminate.
Defined.

(** X14. A container none of whose children produces an element falls
    back to its own trimmed text as one text element (or to nothing when
    that text is empty).  The text is that of the whole subtree, so the
    words inside a suppressed [noscript] child come out this way. *)
Theorem container_falls_back_to_text
    (name : string) (attrs : list (string * string)) (contents : list node) :
  mem (Str.lower name) dispatched_tags = false ->
  (forall child, In child contents -> _parse_elements child = []) ->
  _parse_elements (Tag name attrs contents) =
  if Str.truthy (get_text (Tag name attrs contents))
  then [TextNode (get_text (Tag name attrs contents))]
  else [].
Proof.
  intros Hname Hchildren.
  rewrite (_parse_elements_container name attrs contents Hname).
  now rewrite (flat_map_nil _ _ Hchildren).
Qed.

Lemma container_falls_back_to_text_witness :
  _parse_elements noscript_div = [TextNode "Enable JS"].
Proof.
  apply (container_falls_back_to_text "div" []
           [Tag "noscript" [] [NavigableString "Enable JS"]]).
  - reflexivity.
  - intros child [<- | []]. reflexivity.
Defined.

Lemma filter_idempotent {A : Type} (f : A -> bool) (l : list A) :
  filter f (filter f l) = filter f l.
Proof.
  induction l as [|a l IH]; simpl; [reflexivity|].
  destruct (f a) eqn:E; simpl; [rewrite E, IH|]; auto.
Qed.

(** X15. A [ul] tag always maps to exactly one list, with one item per
    direct child tag named [li], in order.  Everything else directly
    inside the [ul] (loose text, other tags) is ignored: removing it
    changes nothing. *)
Theorem ul_maps_direct_li_children
    (name : string) (attrs : list (string * string)) (contents : list node) :
  Str.lower name = "ul"%string ->
  let items := map _parse_inline_content (filter (is_tag_named "li") contents) in
  _parse_elements (Tag name attrs contents) = [ListElement items] /\
  List.length items = List.length (filter (is_tag_named "li") contents) /\
  _parse_elements (Tag name attrs (filter (is_tag_named "li") contents))
  = _parse_elements (Tag name attrs contents).
Proof.
  intros Hname items.
  assert (Hul : forall cs, _parse_elements (Tag name attrs cs)
                           = [ListElement (map _parse_inline_content
                                               (filter (is_tag_named "li") cs))]).
  { intros cs. rewrite _parse_elements_Tag. cbv zeta. rewrite Hname. reflexivity. }
  split; [apply Hul|]. split.
  - unfold items. apply List.length_map.
  - rewrite !Hul. now rewrite filter_idempotent.
Qed.

Lemma ul_maps_direct_li_children_witness :
  _parse_elements mixed_list = [ListElement [[TextNode "One"]; [TextNode "Two"]]] /\
  List.length [[TextNode "One"]; [TextNode "Two"]] = 2%nat /\
  _parse_elements
    (Tag "ul" [] [Tag "li" [] [NavigableString "One"]; Tag "li" [] [NavigableString "Two"]])
  = _parse_elements mixed_list.
Proof.
  apply (ul_maps_direct_li_children "ul" []
           [NavigableString " loose ";
            Tag "li" [] [NavigableString "One"];
            Tag "p" [] [NavigableString "no"];
            Tag "li" [] [NavigableString "Two"]]).
  reflexivity.
Defined.

(** ** The entry point *)

Lemma find_first {A : Type} (f : A -> bool) (before : list A) (x : A) (after : list A) :
  (forall a, In a before -> f a = false) -> f x = true ->
  find f (before ++ x :: after) = Some x.
Proof.
  intros Hbefore Hx. induction before as [|a before IH]; simpl.
  - now rewrite Hx.
  - rewrite (Hbefore a (or_introl eq_refl)). apply IH.
    intros a' Ha'. apply Hbefore. now right.
Qed.

Lemma find_absent {A : Type} (f : A -> bool) (l : list A) :
  (forall a, In a l -> f a = false) -> find f l = None.
Proof.
  intros H. induction l as [|a l IH]; simpl; [reflexivity|].
  rewrite (H a (or_introl eq_refl)). apply IH.
  intros a' Ha'. apply H. now right.
Qed.

(** X16. The page title is the trimmed text of the first [title] tag in
    document order, wherever it is nested, and the placeholder
    ["No Title"] when the tree has no [title] tag at all. *)
Theorem parse_title (soup : node) :
  ((forall d, In d (descendants soup) -> is_tag_named "title" d = false) ->
   snd (parse soup) = "No Title"%string) /\
  (forall before title after,
      descendants soup = before ++ title :: after ->
      (forall d, In d before -> is_tag_named "title" d = false) ->
      is_tag_named "title" title = true ->
      snd (parse soup) = get_text title).
Proof.
  unfold parse, find_tag. cbn [snd]. split.
  - intros Hnone. now rewrite (find_absent _ _ Hnone).
  - intros before title after Hd Hbefore Htitle.
    now rewrite Hd, (find_first _ before title after Hbefore Htitle).
Qed.

Lemma parse_title_witness :
  snd (parse html_document) = "No Title"%string /\
  snd (parse scenario_A) = get_text (Tag "title" [] [NavigableString "T"]).
Proof.
  split.
  - apply (proj1 (parse_title html_document)).
    intros d Hd. simpl in Hd.
    repeat (destruct Hd as [<- | Hd]; [reflexivity|]). destruct Hd.
  - apply (proj2 (parse_title scenario_A) []
             (Tag "title" [] [NavigableString "T"])
             [NavigableString "T";
              Tag "p" []
                [NavigableString "Hi ";
                 Tag "a" [("href", "x")%string] [NavigableString "there"]];
              NavigableString "Hi ";
              Tag "a" [("href", "x")%string] [NavigableString "there"];
              NavigableString "there"]).
    + reflexivity.
    + intros d [].
    + reflexivity.
Defined.

(** X17. When the top of the tree holds an [html] tag preceded by string
    leaves only (a doctype, comments, white space), mapping starts at that
    tag: what stands before and after it at the top, the doctype
    included, produces no element. *)
Theorem parse_anchors_at_html
    (rname : string) (rattrs hattrs : list (string * string))
    (before after hcontents : list node) :
  Forall (fun n => isinstance_str n = true) before ->
  fst (parse (Tag rname rattrs (before ++ Tag "html" hattrs hcontents :: after)))
  = _parse_elements (Tag "html" hattrs hcontents).
Proof.
  intros Hbefore. unfold parse, find_tag. cbn [fst descendants].
  rewrite flat_map_app. cbn [flat_map app].
  rewrite (find_first (is_tag_named "html")); [reflexivity | | reflexivity].
  intros d Hd. apply in_flat_map in Hd. destruct Hd as [n [Hn Hd]].
  rewrite Forall_forall in Hbefore. specialize (Hbefore n Hn).
  destruct n; [discriminate Hbefore | | |];
    (destruct Hd as [<- | []]; reflexivity).
Qed.

Lemma parse_anchors_at_html_witness :
  fst (parse html_document)
  = _parse_elements (Tag "html" [] [Tag "p" [] [NavigableString "x"]]).
Proof.
  apply (parse_anchors_at_html "[document]" [] [] [Doctype "html"] [Comment " end "]
           [Tag "p" [] [NavigableString "x"]]).
  repeat constructor.
Defined.

(** ** The output compositor *)

Lemma repeat_nat_length (c : ascii) (n : nat) :
  String.length (Str.repeat_nat (String c EmptyString) n) = n.
Proof.
  induction n as [|n IH]; simpl; [reflexivity | now rewrite IH].
Qed.

Lemma append_empty_r (s : string) : (s ++ "")%string = s.
Proof.
  induction s as [|c s IH]; simpl; [reflexivity | now rewrite IH].
Qed.

Lemma append_assoc (a b c : string) : ((a ++ b) ++ c)%string = (a ++ b ++ c)%string.
Proof.
  induction a as [|x a IH]; simpl; [reflexivity | now rewrite IH].
Qed.

(** X18. The banner of a title is three lines: a border, the title between
    ["=== "] and [" ==="], and the border again.  The border has six
    characters more than the title, the title line eight: the title line
    overhangs the borders by two. *)
Theorem banner_geometry (title : string) :
  exists border line,
    banner title
    = (BOLD ++ CYAN_FG ++ border ++ NL ++ line ++ NL ++ border ++ RESET ++ NL ++ NL)%string /\
    line = ("=== " ++ title ++ " ===")%string /\
    String.length border = (String.length title + 6)%nat /\
    String.length line = (String.length title + 8)%nat.
Proof.
  exists (Str.repeat "=" (Z.of_nat (String.length title) + 6)),
         ("=== " ++ title ++ " ===")%string.
  split; [unfold banner; cbv zeta; now rewrite !append_assoc|].
  split; [reflexivity|]. split.
  - unfold Str.repeat. rewrite repeat_nat_length. lia.
  - rewrite !length_append. simpl. lia.
Qed.

Lemma join_empty_cons (x : string) (l : list string) :
  Str.join "" (x :: l) = (x ++ Str.join "" l)%string.
Proof.
  unfold Str.join. destruct l; simpl; [now rewrite append_empty_r | reflexivity].
Qed.

Lemma join_empty_app (l1 l2 : list string) :
  Str.join "" (l1 ++ l2) = (Str.join "" l1 ++ Str.join "" l2)%string.
Proof.
  induction l1 as [|x l1 IH]; [reflexivity|].
  cbn [app]. now rewrite !join_empty_cons, IH, append_assoc.
Qed.

Section RendererProperties.

Variable payload : Type.
Variable requests_get : string -> string + payload.
Variable Image_open : payload -> option image.
Variable LANCZOS : image -> Z * Z -> Z -> Z -> rgb.
Variable exn_text : exn -> string.

Local Abbreviation Renderer_render' :=
  (Renderer_render payload requests_get Image_open LANCZOS exn_text).

(** X19. The error marker of an image that stands on its own in the
    element list is never shown: [Renderer.render] drops what the image's
    [render] returns, so a failed fetch leaves no trace in the output.
    The same image inside a paragraph does show its marker. *)
Theorem top_level_image_error_is_dropped
    (src : string) (base_url : option string) (max_width : Z) (e : string) :
  requests_get (image_url src base_url) = inl e ->
  Renderer_render' [ImageElement src base_url max_width] None = EmptyString /\
  Renderer_render' [Paragraph [ImageElement src base_url max_width]] None
  = (image_error_marker src e ++ NL)%string.
Proof.
  intros Hget.
  unfold Renderer_render, render_element, render_value, ImageElement_render_io.
  cbn [map render render_prints Str.join concat fst snd append].
  unfold ImageElement_render_io. rewrite Hget. cbn [fst snd append].
  split; reflexivity.
Qed.

(** X20. Elements are printed one after the other with nothing between
    them: after the banner, the output for a list put together from two
    lists is the output for the first followed by the output for the
    second.  An empty title prints no banner, like no title. *)
Theorem Renderer_render_in_order
    (elements more : list element) (title : option string) :
  Renderer_render' (elements ++ more) title
  = (Renderer_render' elements title ++ Renderer_render' more None)%string /\
  Renderer_render' elements (Some EmptyString) = Renderer_render' elements None.
Proof.
  split; [|reflexivity].
  unfold Renderer_render. rewrite map_app, join_empty_app.
  cbn [append]. now rewrite append_assoc.
Qed.

End RendererProperties.

Lemma top_level_image_error_is_dropped_witness :
  Renderer_render unit failing_get no_decoder paint_black no_exn_text
    [ImageElement "/logo.png" None 80] None = EmptyString /\
  Renderer_render unit failing_get no_decoder paint_black no_exn_text
    [Paragraph [ImageElement "/logo.png" None 80]] None
  = (image_error_marker "/logo.png" "timed out" ++ NL)%string.
Proof.
  apply (top_level_image_error_is_dropped unit failing_get no_decoder paint_black
           no_exn_text "/logo.png" None 80 "timed out").
  reflexivity.
Defined.

(** ** Navigation *)

Lemma prefix_append (p s : string) : prefix p (p ++ s) = true.
Proof. apply prefix_iff. now exists s. Qed.

Lemma navigate_consistent (b : Browser) (url : string) :
  consistent (fst (navigate b url)).
Proof.
  unfold consistent, navigate. cbn [fst history current_url].
  rewrite last_last. destruct (history b); reflexivity.
Qed.

Lemma go_back_consistent (b : Browser) :
  consistent b -> consistent (fst (go_back b)).
Proof.
  intros Hb. unfold go_back.
  destruct (1 <? List.length (history b))%nat eqn:Hlen; [|exact Hb].
  unfold consistent. cbn [fst history current_url].
  destruct (history b) as [|u [|v h]]; [discriminate Hlen | discriminate Hlen |].
  reflexivity.
Qed.

Lemma handle_input_consistent (b : Browser) (user_input : string) :
  consistent b -> consistent (fst (handle_input b user_input)).
Proof.
  intros Hb. unfold handle_input.
  destruct (prefix "go " user_input); [apply navigate_consistent|].
  destruct (prefix "search " user_input); [apply navigate_consistent|].
  destruct (String.eqb user_input "back"); [now apply go_back_consistent | exact Hb].
Qed.

Lemma command_loop_consistent (inputs : list string) (b : Browser) :
  consistent b -> consistent (fst (command_loop b inputs)).
Proof.
  revert b. induction inputs as [|user_input rest IH]; intros b Hb; simpl; [exact Hb|].
  destruct (String.eqb user_input "quit"); [exact Hb|].
  pose proof (handle_input_consistent b user_input Hb) as Hb'.
  destruct (handle_input b user_input) as [b' effects].
  specialize (IH b' Hb').
  destruct (command_loop b' rest) as [b'' effects']. exact IH.
Qed.

(** X21. Whatever is typed, the browser's current locator stays the last
    entry of its history, and stays unset exactly while the history is
    empty. *)
Theorem history_tracks_current_url (inputs : list string) :
  consistent (fst (start inputs)).
Proof.
  unfold start.
  pose proof (command_loop_consistent inputs Browser_init eq_refl) as H.
  destruct (command_loop Browser_init inputs) as [b effects]. exact H.
Qed.

(** X22. Going back after a navigation undoes it: from a browser that has
    visited at least one page, [navigate] followed by [go_back] gives the
    browser back as it was and reloads the page it was on. *)
Theorem go_back_undoes_navigate (b : Browser) (url : string) :
  consistent b -> history b <> [] ->
  go_back (fst (navigate b url))
  = (b, [LoadContent (last (history b) EmptyString)]).
Proof.
  intros Hb Hne. unfold consistent in Hb.
  destruct b as [h cur]. cbn [history current_url] in *.
  unfold go_back, navigate. cbn [fst history current_url].
  replace (1 <? List.length (h ++ [url]))%nat with true.
  - rewrite removelast_last.
    destruct h as [|u h]; [contradiction|]. now rewrite Hb.
  - symmetry. apply Nat.ltb_lt. rewrite List.length_app. simpl.
    destruct h; [contradiction | simpl; lia].
Qed.

Lemma go_back_undoes_navigate_witness :
  go_back (fst (navigate one_page_browser "python.org"))
  = (one_page_browser, [LoadContent "example.com"]).
Proof.
  apply (go_back_undoes_navigate one_page_browser "python.org").
  - reflexivity.
  - discriminate.
Defined.

(** X23. The start page is not part of the history: [start] loads
    ["home"] without recording it, so after the first [go] a [back] is
    refused and the home page is not loaded again. *)
Theorem home_is_not_in_history (url : string) :
  start [("go " ++ url)%string; "back"%string]
  = ({| history := [Str.strip url]; current_url := Some (Str.strip url) |},
     [PrintLine ("Welcome to the TUI Web Browser!" ++ NL
                   ++ "Commands: go <url>, search <query>, back, quit")%string;
      LoadContent "home";
      LoadContent (Str.strip url);
      PrintLine "No history to go back to."]).
Proof.
  unfold start. cbn [command_loop].
  change (String.eqb ("go " ++ url) "quit") with false. cbv iota.
  unfold handle_input at 1. rewrite (prefix_append "go " url).
  change (drop 3 ("go " ++ url)) with url.
  reflexivity.
Qed.

(** X24. The loop stops at the first [quit]: nothing typed after it has
    any effect. *)
Theorem quit_ends_the_loop (b : Browser) (before after : list string) :
  command_loop b (before ++ "quit"%string :: after)
  = command_loop b (before ++ ["quit"%string]).
Proof.
  revert b. induction before as [|user_input before IH]; intros b; [reflexivity|].
  cbn [app command_loop].
  destruct (String.eqb user_input "quit"); [reflexivity|].
  destruct (handle_input b user_input) as [b' effects].
  now rewrite IH.
Qed.

(** X25. A [search] command navigates to the locator ["search:"] followed
    by the trimmed query, and loading that locator looks up exactly this
    trimmed query (the second trimming changes nothing); no remote fetch
    takes place. *)
Theorem search_command_loads_results (b : Browser) (query : string) :
  handle_input b ("search " ++ query)
  = navigate b ("search:" ++ Str.strip query) /\
  _load_content_source ("search:" ++ Str.strip query)
  = SearchResults (Str.strip query).
Proof.
  split.
  - unfold handle_input.
    change (prefix "go " ("search " ++ query)) with false. cbv iota.
    rewrite (prefix_append "search " query). reflexivity.
  - unfold _load_content_source.
    change (String.eqb ("search:" ++ Str.strip query) "home") with false.
    change (String.eqb ("search:" ++ Str.strip query) "another_page") with false.
    cbv iota. rewrite (prefix_append "search:" (Str.strip query)).
    change (drop 7 ("search:" ++ Str.strip query)) with (Str.strip query).
    now rewrite strip_idempotent.
Qed.

(** X26. A locator that is fetched remotely always carries a scheme:
    [https://] is put in front unless the locator already starts with
    [http://] or [https://], and doing so twice is the same as once.  The
    three local kinds of locator are never fetched. *)
Theorem remote_locators_carry_a_scheme (url : string) :
  with_scheme (with_scheme url) = with_scheme url /\
  prefix "http://" (with_scheme url) || prefix "https://" (with_scheme url) = true /\
  (forall fetched,
      _load_content_source url = Remote fetched ->
      fetched = with_scheme url /\
      url <> "home"%string /\ url <> "another_page"%string /\
      prefix "search:" url = false).
Proof.
  assert (Hscheme : prefix "http://" (with_scheme url)
                    || prefix "https://" (with_scheme url) = true).
  { unfold with_scheme.
    destruct (prefix "http://" url || prefix "https://" url) eqn:E; [exact E|].
    rewrite (prefix_append "https://" url). apply orb_true_r. }
  split; [|split; [exact Hscheme|]].
  - unfold with_scheme at 1. now rewrite Hscheme.
  - intros fetched. unfold _load_content_source.
    destruct (String.eqb_spec url "home"); [discriminate|].
    destruct (String.eqb_spec url "another_page"); [discriminate|].
    destruct (prefix "search:" url); [discriminate|].
    intros [= <-]. repeat split; assumption.
Qed.

(** ** The colour codec *)

(** Reading back what [f"{n}"] wrote gives [n]. *)
Lemma int_of_str_of_int (n : Z) : int_of_str (Str.of_int n) = Some n.
Proof.
  unfold int_of_str, Str.of_int.
  rewrite <- (DecimalZ.of_to n) at 2.
  destruct (Z.to_int n) as [[| | | | | | | | | |] | [| | | | | | | | | |]];
    try reflexivity;
    (rewrite NilZero.isi; [reflexivity | discriminate | discriminate]).
Qed.

Lemma of_int_injective (n m : Z) : Str.of_int n = Str.of_int m -> n = m.
Proof.
  intros E. pose proof (int_of_str_of_int n) as Hn.
  rewrite E, int_of_str_of_int in Hn. now injection Hn.
Qed.

Lemma string_of_uint_numeric (d : Decimal.uint) :
  all_chars is_numeric (NilEmpty.string_of_uint d) = true.
Proof.
  induction d; simpl; [reflexivity | | | | | | | | | |]; exact IHd.
Qed.

Lemma of_int_numeric (n : Z) : all_chars is_numeric (Str.of_int n) = true.
Proof.
  unfold Str.of_int, NilZero.string_of_int, NilZero.string_of_uint.
  assert (Hu : forall d,
             all_chars is_numeric
               match d with
               | Decimal.Nil => "0"%string
               | _ => NilEmpty.string_of_uint d
               end = true).
  { intros d. destruct d; try reflexivity;
      match goal with
      | |- all_chars _ (NilEmpty.string_of_uint ?u) = true =>
          apply (string_of_uint_numeric u)
      end. }
  destruct (Z.to_int n) as [d | d]; [apply Hu|].
  cbn [all_chars]. rewrite Hu. reflexivity.
Qed.

(** Two texts cut at the first character that none of them can hold. *)
Lemma split_at_separator (p : ascii -> bool) (sep : ascii) (a a' x y : string) :
  p sep = false ->
  all_chars p a = true -> all_chars p a' = true ->
  (a ++ String sep x)%string = (a' ++ String sep y)%string ->
  a = a' /\ x = y.
Proof.
  intros Hsep. revert a'.
  induction a as [|c a IH]; intros [|c' a'] Ha Ha' E; simpl in *.
  - injection E as <-. split; reflexivity.
  - injection E as <- _. apply andb_prop in Ha'. destruct Ha' as [Hc _]. congruence.
  - injection E as -> _. apply andb_prop in Ha. destruct Ha as [Hc _]. congruence.
  - injection E as <- E.
    apply andb_prop in Ha. apply andb_prop in Ha'.
    destruct (IH a' (proj2 Ha) (proj2 Ha') E) as [-> ->]. split; reflexivity.
Qed.

Lemma channels_injective (r g b r' g' b' : Z) :
  (Str.of_int r ++ ";" ++ Str.of_int g ++ ";" ++ Str.of_int b ++ "m")%string
  = (Str.of_int r' ++ ";" ++ Str.of_int g' ++ ";" ++ Str.of_int b' ++ "m")%string ->
  (r, g, b) = (r', g', b').
Proof.
  intros E.
  apply (split_at_separator is_numeric ";") in E;
    [| reflexivity | apply of_int_numeric | apply of_int_numeric].
  destruct E as [Er E].
  apply (split_at_separator is_numeric ";") in E;
    [| reflexivity | apply of_int_numeric | apply of_int_numeric].
  destruct E as [Eg E].
  apply (split_at_separator is_numeric "m") in E;
    [| reflexivity | apply of_int_numeric | apply of_int_numeric].
  destruct E as [Eb _].
  apply of_int_injective in Er, Eg, Eb. now subst.
Qed.

(** X27. The escape code of a colour determines the colour: two
    foreground codes, or two background codes, are equal only for equal
    triples, and a foreground code is never a background code. *)
Theorem colour_codes_are_injective (c c' : rgb) :
  (rgb_to_ansi_fg c = rgb_to_ansi_fg c' -> c = c') /\
  (rgb_to_ansi_bg c = rgb_to_ansi_bg c' -> c = c') /\
  rgb_to_ansi_fg c <> rgb_to_ansi_bg c'.
Proof.
  destruct c as [[r g] b], c' as [[r' g'] b'].
  unfold rgb_to_ansi_fg, rgb_to_ansi_bg. cbn [ESC append].
  split; [|split].
  - intros E. injection E as E. now apply channels_injective.
  - intros E. injection E as E. now apply channels_injective.
  - discriminate.
Qed.

Lemma colour_codes_are_injective_witness :
  (255, 128, 0) = (255, 128, 0).
Proof.
  apply (proj1 (colour_codes_are_injective (255, 128, 0) (255, 128, 0))).
  reflexivity.
Defined.
